(** * TMDA local mail delivery ([TMDA/Deliver.py])

    A shallow embedding of the [Deliver] class: the instruction parser
    [_get_instructions], the orchestration in [deliver], the mbox and mmdf
    appenders and the maildir writer, over an explicit model of the file
    system, the alarm clock and the outcome of every system call.

    Conventions of the embedding.
    - Text and file contents are both [string] (sequences of 8-bit
      characters, the [str] of Python 2); the comparisons of [first_line]
      against the literals [''], ['From '] and ['\1\1\1\1\n'] are
      comparisons of such sequences.
    - [IOError] and [OSError] are one exception class ([EnvError] below), as
      the maildir writer's [except (OSError, IOError)] treats them.
    - Every call site that talks to the operating system has a name
      ([site]); a [faults] function says for each site whether the call
      fails, with which error text, and (for writes) after how many bytes.
      A site is run at most once in a delivery, so this covers every
      schedule of failures. *)

From Stdlib Require Import String Ascii ZArith NArith List Bool Lia.
From Stdlib Require Import DecimalString HexadecimalString.
From stdpp Require Import base option gmap strings.

Local Open Scope string_scope.
Local Open Scope char_scope.

(** ** Python values used by the module *)

Module Py.

(** The exceptions that the delivery code can see. *)
Inductive exn : Type :=
| IndexError
| TypeError
| ValueError
| NameError
| EnvError (txt : string)          (* IOError / OSError *)
| DeliveryError (msg : string).    (* Errors.DeliveryError *)

Inductive result (A : Type) : Type :=
| Ret (a : A)
| Raise (e : exn).
Arguments Ret {A} a.
Arguments Raise {A} e.

(** [s[0]]: the first character, [IndexError] on the empty string. *)
Definition index_first (s : string) : result ascii :=
  match s with
  | EmptyString => Raise IndexError
  | String c _ => Ret c
  end.

Fixpoint last_or (d : ascii) (s : string) : ascii :=
  match s with
  | EmptyString => d
  | String c r => last_or c r
  end.

(** [s[-1]]: the last character, [IndexError] on the empty string. *)
Definition index_last (s : string) : result ascii :=
  match s with
  | EmptyString => Raise IndexError
  | String c r => Ret (last_or c r)
  end.

(** [s[1:]]: never raises. *)
Definition slice_from1 (s : string) : string :=
  match s with
  | EmptyString => EmptyString
  | String _ r => r
  end.

(** [s[:n]]. *)
Fixpoint slice_to (n : nat) (s : string) : string :=
  match n, s with
  | O, _ => EmptyString
  | S _, EmptyString => EmptyString
  | S k, String c r => String c (slice_to k r)
  end.

Definition in_range (lo hi c : ascii) : bool :=
  (nat_of_ascii lo <=? nat_of_ascii c)%nat && (nat_of_ascii c <=? nat_of_ascii hi)%nat.

(** [c.isalnum()] on a one-character string: the ASCII letters and digits. *)
Definition isalnum (c : ascii) : bool :=
  in_range "0" "9" c || in_range "A" "Z" c || in_range "a" "z" c.

(** The characters removed by [strip()] without argument:
    space, tab, newline, carriage return, vertical tab, form feed. *)
Definition isspace (c : ascii) : bool :=
  (nat_of_ascii c =? 32)%nat || in_range "009" "013" c.

Definition is_char (x c : ascii) : bool := Ascii.eqb x c.

Fixpoint lstrip (p : ascii -> bool) (s : string) : string :=
  match s with
  | EmptyString => EmptyString
  | String c r => if p c then lstrip p r else s
  end.

Fixpoint rstrip (p : ascii -> bool) (s : string) : string :=
  match s with
  | EmptyString => EmptyString
  | String c r =>
      match rstrip p r with
      | EmptyString => if p c then EmptyString else String c EmptyString
      | r' => String c r'
      end
  end.

(** [s.strip(chars)] with [p] the membership test of [chars]. *)
Definition strip_chars (p : ascii -> bool) (s : string) : string :=
  rstrip p (lstrip p s).

(** [s.strip()]. *)
Definition strip (s : string) : string := strip_chars isspace s.

(** [s.find('/', 1)] as the pair (text before the slash, text from it on),
    for a string that starts with a tilde: [path[1:i]] and [path[i:]]. *)
Fixpoint split_at_slash (s : string) : string * string :=
  match s with
  | EmptyString => (EmptyString, EmptyString)
  | String c r =>
      if is_char "/" c then (EmptyString, s)
      else let '(u, rest) := split_at_slash r in (String c u, rest)
  end.

(** [s.replace(c, by)] for a one-character pattern. *)
Fixpoint replace_char (c : ascii) (by_ : string) (s : string) : string :=
  match s with
  | EmptyString => EmptyString
  | String x r =>
      if is_char c x then by_ +:+ replace_char c by_ r
      else String x (replace_char c by_ r)
  end.

(** What [os.path.expanduser] reads from the process environment. *)
Record userdb : Type := {
  own_home : option string;            (* $HOME, else the pw_dir of the uid *)
  pw_dir : string -> option string     (* pwd.getpwnam(name).pw_dir *)
}.

(** [os.path.expanduser] of [posixpath]. *)
Definition expanduser (db : userdb) (path : string) : string :=
  match path with
  | String "~" r =>
      let '(name, rest) := split_at_slash r in
      let home :=
        match name with
        | EmptyString => own_home db
        | _ => pw_dir db name
        end in
      match home with
      | None => path
      | Some userhome =>
          match rstrip (is_char "/") userhome +:+ rest with
          | EmptyString => "/"%string
          | p => p
          end
      end
  | _ => path
  end.

(** [os.path.join(a, b)] for a relative [b]. *)
Definition path_join (a b : string) : string :=
  match a with
  | EmptyString => b
  | String c r => if is_char "/" (last_or c r) then a +:+ b else a +:+ "/" +:+ b
  end.

End Py.
Import Py.

(** ** Delivery instructions *)

(** The delivery types, the strings ['program'], ['forward'], ['mmdf'],
    ['mbox'], ['maildir'] and ['filter'] of the source. *)
Inductive delivery_type : Type := program | forward | mmdf | mbox | maildir | filter.

Definition delivery_type_eqb (a b : delivery_type) : bool :=
  match a, b with
  | program, program | forward, forward | mmdf, mmdf
  | mbox, mbox | maildir, maildir | filter, filter => true
  | _, _ => false
  end.

(** The pair returned by [_get_instructions]; [(None, None)] is the
    unrecognised instruction. *)
Definition instruction : Type := option delivery_type * option string.

Definition unrecognized : instruction := (None, None).

Section Parser.

Variable db : userdb.

(** [Deliver._get_instructions]. *)
Definition _get_instructions (option : string) : result instruction :=
  match index_first option with
  | Raise e => Raise e
  | Ret first =>
  match index_last option with
  | Raise e => Raise e
  | Ret last =>
      if is_char "|" first then
        Ret (Some program, Some (strip (slice_from1 option)))
      else if is_char "&" first || isalnum first then
        Ret (Some forward, Some (strip (strip_chars (is_char "&") option)))
      else if is_char ":" first then
        Ret (Some mmdf, Some (expanduser db (strip (slice_from1 option))))
      else if (is_char "/" first || is_char "~" first) && negb (is_char "/" last) then
        Ret (Some mbox, Some (expanduser db option))
      else if (is_char "/" first || is_char "~" first) && is_char "/" last then
        Ret (Some mbox, Some (expanduser db option))
      else if String.eqb option "_filter_" then
        Ret (Some filter, Some "stdout"%string)
      else Ret unrecognized
  end end.

End Parser.

(** [Deliver.get_instructions]: as above, but an unrecognised instruction
    raises.  The text is
    [Delivery instruction "<option>" is not recognized!]. *)
Definition dq : string := String "034" EmptyString.

Definition msg_not_recognized (option : string) : string :=
  "Delivery instruction " +:+ dq +:+ option +:+ dq +:+ " is not recognized!".

Definition get_instructions (db : userdb) (option : string)
  : result (delivery_type * string) :=
  match _get_instructions db option with
  | Raise e => Raise e
  | Ret (Some t, Some d) => Ret (t, d)
  | Ret _ => Raise (DeliveryError (msg_not_recognized option))
  end.

(** ** The operating system seen by one delivery *)

(** A directory entry is a hard link to an inode or a symbolic link. *)
Inductive dirent : Type :=
| Hard (ino : N)
| Sym (target : string).

Inductive ftype : Type := Regular | Directory.

Record inode : Type := {
  i_type : ftype;
  i_data : string;
  i_atime : N;
  i_mtime : N;
  i_locked : bool;      (* an exclusive flock is held *)
  i_mode : N;
  i_uid : N;
  i_gid : N
}.

Inductive sighandler : Type := SIG_DFL | alarm_handler.

(** The call sites that can fail. *)
Inductive site : Type :=
(* __deliver_mbox and __deliver_mmdf, try body *)
| a_open | a_lock | a_fstat_old | a_seek_start | a_readline
| a_abort_unlock | a_abort_close
| a_seek_end | a_tell | a_write_start | a_write_message | a_write_blank
| a_write_end | a_flush | a_fsync | a_fstat_new | a_unlock | a_close
| a_utime
(* ... their except clause *)
| h_truncate | h_unlock | h_close
(* __deliver_maildir *)
| m_stat_maildir | m_open | m_write | m_flush | m_fsync | m_close
| m_chmod | m_chown | m_stat_tmp | m_link | m_unlink | m_cleanup_unlink
(* collaborators *)
| x_runcmd | x_sendmail.

(** What the process did, as seen from outside: the calls to the
    collaborators of the module, and every call made at a [site] with
    whether it returned normally. *)
Inductive event : Type :=
| EvPurgeHeaders
| EvMsgAsString (mangle_from_ unixfrom : bool)
| EvRuncmd (program message : string)
| EvSendmail (message address : string) (env_sender : option string)
| EvSys (s : site) (ok : bool).

Record world : Type := {
  names : gmap string dirent;
  inodes : gmap N inode;
  alarm : option N;            (* seconds to the pending SIGALRM *)
  sigalrm : sighandler;
  trace : list event           (* most recent first *)
}.

Record fault : Type := {
  errtxt : string;     (* str() of the error *)
  written : nat        (* bytes that reached the file before a write failed *)
}.

(** What the process reads from its surroundings. *)
Record environ : Type := {
  faults : site -> option fault;
  users : userdb;
  time_now : N;              (* time.time(), whole seconds *)
  getpid : N;
  gethostname : string;
  getuid : N;
  getgid : N;
  umask : N;
  the_dev : N;               (* device of the file system *)
  fresh_ino : N;             (* inode number given to the next new file *)
  sender : option string     (* os.environ.get('SENDER') *)
}.

(** *** Path lookup *)

(** Follow symbolic links from [p]; [None] after too many links. The result
    is the last name reached, bound to a hard link or unbound. *)
Fixpoint final_name (fuel : nat) (ns : gmap string dirent) (p : string)
  : option string :=
  match ns !! p with
  | Some (Sym t) =>
      match fuel with
      | O => None
      | S k => final_name k ns t
      end
  | _ => Some p
  end.

Definition MAXSYMLINKS : nat := 40.

(** The inode number that [stat(p)] reaches. *)
Definition stat_ino (w : world) (p : string) : option N :=
  match final_name MAXSYMLINKS (names w) p with
  | Some q => match names w !! q with
              | Some (Hard i) => Some i
              | _ => None
              end
  | None => None
  end.

Definition stat (w : world) (p : string) : option inode :=
  match stat_ino w p with
  | Some i => inodes w !! i
  | None => None
  end.

(** [os.path.exists]: follows symbolic links. *)
Definition path_exists (w : world) (p : string) : bool :=
  match stat w p with Some _ => true | None => false end.

(** [os.path.islink]: looks at the name itself. *)
Definition path_islink (w : world) (p : string) : bool :=
  match names w !! p with Some (Sym _) => true | _ => false end.

(** [os.path.isdir]: follows symbolic links. *)
Definition path_isdir (w : world) (p : string) : bool :=
  match stat w p with
  | Some nd => match i_type nd with Directory => true | Regular => false end
  | None => false
  end.

(** *** World updates *)

Definition set_names (f : gmap string dirent -> gmap string dirent) (w : world) : world :=
  {| names := f (names w); inodes := inodes w; alarm := alarm w;
     sigalrm := sigalrm w; trace := trace w |}.

Definition set_inodes (f : gmap N inode -> gmap N inode) (w : world) : world :=
  {| names := names w; inodes := f (inodes w); alarm := alarm w;
     sigalrm := sigalrm w; trace := trace w |}.

Definition set_alarm (a : option N) (w : world) : world :=
  {| names := names w; inodes := inodes w; alarm := a;
     sigalrm := sigalrm w; trace := trace w |}.

Definition set_sigalrm (h : sighandler) (w : world) : world :=
  {| names := names w; inodes := inodes w; alarm := alarm w;
     sigalrm := h; trace := trace w |}.

Definition log (e : event) (w : world) : world :=
  {| names := names w; inodes := inodes w; alarm := alarm w;
     sigalrm := sigalrm w; trace := e :: trace w |}.

Definition with_data (d : string) (mt : N) (nd : inode) : inode :=
  {| i_type := i_type nd; i_data := d; i_atime := i_atime nd; i_mtime := mt;
     i_locked := i_locked nd; i_mode := i_mode nd; i_uid := i_uid nd;
     i_gid := i_gid nd |}.

Definition with_times (at_ mt : N) (nd : inode) : inode :=
  {| i_type := i_type nd; i_data := i_data nd; i_atime := at_; i_mtime := mt;
     i_locked := i_locked nd; i_mode := i_mode nd; i_uid := i_uid nd;
     i_gid := i_gid nd |}.

Definition with_lock (l : bool) (nd : inode) : inode :=
  {| i_type := i_type nd; i_data := i_data nd; i_atime := i_atime nd;
     i_mtime := i_mtime nd; i_locked := l; i_mode := i_mode nd;
     i_uid := i_uid nd; i_gid := i_gid nd |}.

Definition with_mode (m : N) (nd : inode) : inode :=
  {| i_type := i_type nd; i_data := i_data nd; i_atime := i_atime nd;
     i_mtime := i_mtime nd; i_locked := i_locked nd; i_mode := m;
     i_uid := i_uid nd; i_gid := i_gid nd |}.

Definition with_owner (u g : N) (nd : inode) : inode :=
  {| i_type := i_type nd; i_data := i_data nd; i_atime := i_atime nd;
     i_mtime := i_mtime nd; i_locked := i_locked nd; i_mode := i_mode nd;
     i_uid := u; i_gid := g |}.

Definition upd_inode (i : N) (f : inode -> inode) (w : world) : world :=
  set_inodes (alter f i) w.

(** ** A state and exception monad *)

Definition M (S A : Type) : Type := S -> result A * S.

Definition ret {S A} (a : A) : M S A := fun s => (Ret a, s).

Definition raise {S A} (e : exn) : M S A := fun s => (Raise e, s).

Definition bind {S A B} (m : M S A) (k : A -> M S B) : M S B :=
  fun s => match m s with
           | (Ret a, s') => k a s'
           | (Raise e, s') => (Raise e, s')
           end.

(** [try: body except <catches> as e: handler e]. *)
Definition try_except {S A} (body : M S A) (catches : exn -> bool)
    (handler : exn -> M S A) : M S A :=
  fun s => match body s with
           | (Raise e, s') => if catches e then handler e s' else (Raise e, s')
           | r => r
           end.

Definition gets {S A} (f : S -> A) : M S A := fun s => (Ret (f s), s).

Definition modify {S} (f : S -> S) : M S unit := fun s => (Ret tt, f s).

Definition lift_result {S A} (r : result A) : M S A := fun s => (r, s).

Declare Scope py_scope.
Delimit Scope py_scope with py.
Notation "x <- m ;; k" := (bind m (fun x => k))
  (at level 100, m at next level, right associativity) : py_scope.
Notation "m ;; k" := (bind m (fun _ => k))
  (at level 100, right associativity) : py_scope.
Local Open Scope py_scope.

(** [except IOError] / [except OSError] / [except (OSError, IOError)]. *)
Definition is_env_error (e : exn) : bool :=
  match e with EnvError _ => true | _ => false end.

(** A bare [except:]. *)
Definition any_error (e : exn) : bool := true.

(** [str(e)]. *)
Definition exn_text (e : exn) : string :=
  match e with
  | EnvError t => t
  | DeliveryError t => t
  | IndexError => "string index out of range"
  | TypeError => "TypeError"
  | ValueError => "I/O operation on closed file"
  | NameError => "local variable referenced before assignment"
  end.

(** ** File contents *)

Definition nl : string := String "010" EmptyString.

Fixpoint drop_chars (n : nat) (s : string) : string :=
  match n, s with
  | O, _ => s
  | S _, EmptyString => EmptyString
  | S k, String _ r => drop_chars k r
  end.

(** The line that [readline] returns from the text at the file position:
    up to and including the first newline. *)
Fixpoint first_line_of (s : string) : string :=
  match s with
  | EmptyString => EmptyString
  | String c r =>
      if is_char "010" c then String c EmptyString
      else String c (first_line_of r)
  end.

(** The file after writing [x] at offset [pos]. *)
Definition write_at (pos : nat) (x d : string) : string :=
  slice_to pos d +:+ x +:+ drop_chars (pos + String.length x) d.

Fixpoint zeros (n : nat) : string :=
  match n with O => EmptyString | S k => String "000" (zeros k) end.

(** The file after [truncate(n)]: cut, or extended with zero bytes. *)
Definition resize (n : nat) (d : string) : string :=
  slice_to n d +:+ zeros (n - String.length d).

(** ** System calls *)

Definition ENOENT : exn := EnvError "No such file or directory".
Definition EEXIST : exn := EnvError "File exists".
Definition EISDIR : exn := EnvError "Is a directory".
Definition EBADF : exn := EnvError "Bad file descriptor".
Definition ELOOP : exn := EnvError "Too many levels of symbolic links".

(** What [os.stat] returns, as far as the callers read it. *)
Record stat_result : Type := {
  ST_DEV : N;
  ST_INO : N;
  ST_UID : N;
  ST_GID : N;
  ST_ATIME : N;
  ST_MTIME : N
}.

Section Syscalls.

Variable env : environ.

(** The call at site [s]: it fails when the surroundings say so, and
    otherwise does [op]; either way the outcome is logged. *)
Definition syscall {A} (s : site) (op : world -> result A * world) : M world A :=
  fun w =>
    match faults env s with
    | Some f => (Raise (EnvError (errtxt f)), log (EvSys s false) w)
    | None =>
        match op w with
        | (Ret a, w') => (Ret a, log (EvSys s true) w')
        | (Raise e, w') => (Raise e, log (EvSys s false) w')
        end
    end.

(** An operation on the inode behind a descriptor. *)
Definition on_inode {A} (i : N) (k : inode -> world -> result A * world)
  : world -> result A * world :=
  fun w => match inodes w !! i with
           | Some nd => k nd w
           | None => (Raise EBADF, w)
           end.

Definition stat_of (i : N) (nd : inode) : stat_result :=
  {| ST_DEV := the_dev env; ST_INO := i; ST_UID := i_uid nd; ST_GID := i_gid nd;
     ST_ATIME := i_atime nd; ST_MTIME := i_mtime nd |}.

(** [open(path, 'rb+')]: the file must exist; nothing is created or
    truncated. Returns the inode the descriptor refers to. *)
Definition sys_open_rw (s : site) (path : string) : M world N :=
  syscall s (fun w =>
    match stat_ino w path with
    | None => (Raise ENOENT, w)
    | Some i =>
        on_inode i (fun nd w =>
          match i_type nd with
          | Directory => (Raise EISDIR, w)
          | Regular => (Ret i, w)
          end) w
    end).

(** [open(path, 'w')]: the file is created, or emptied when it exists. *)
Definition sys_open_w (s : site) (path : string) : M world N :=
  syscall s (fun w =>
    match final_name MAXSYMLINKS (names w) path with
    | None => (Raise ELOOP, w)
    | Some q =>
        match names w !! q with
        | Some (Hard i) =>
            on_inode i (fun nd w =>
              match i_type nd with
              | Directory => (Raise EISDIR, w)
              | Regular => (Ret i, upd_inode i (with_data EmptyString (time_now env)) w)
              end) w
        | _ =>
            let i := fresh_ino env in
            let nd := {| i_type := Regular; i_data := EmptyString; i_atime := time_now env;
                         i_mtime := time_now env; i_locked := false;
                         i_mode := N.ldiff 438 (umask env);
                         i_uid := getuid env; i_gid := getgid env |} in
            (Ret i, set_inodes (insert i nd) (set_names (insert q (Hard i)) w))
        end
    end).

(** [fcntl.flock(fd, LOCK_EX)] and [fcntl.flock(fd, LOCK_UN)]. *)
Definition sys_flock (s : site) (i : N) (held : bool) : M world unit :=
  syscall s (on_inode i (fun _ w => (Ret tt, upd_inode i (with_lock held) w))).

(** [os.fstat(fd)]. *)
Definition sys_fstat (s : site) (i : N) : M world stat_result :=
  syscall s (on_inode i (fun nd w => (Ret (stat_of i nd), w))).

(** [os.stat(path)]. *)
Definition sys_stat (s : site) (path : string) : M world stat_result :=
  syscall s (fun w =>
    match stat_ino w path with
    | None => (Raise ENOENT, w)
    | Some i => on_inode i (fun nd w => (Ret (stat_of i nd), w)) w
    end).

(** Moving the file position to the start, or to the end (the new
    position is returned). *)
Definition sys_seek_start (s : site) (i : N) : M world nat :=
  syscall s (on_inode i (fun _ w => (Ret 0, w))).

Definition sys_seek_end (s : site) (i : N) : M world nat :=
  syscall s (on_inode i (fun nd w => (Ret (String.length (i_data nd)), w))).

(** A call that only succeeds or fails: [tell], [flush], [fsync], [close]. *)
Definition sys_plain (s : site) : M world unit :=
  syscall s (fun w => (Ret tt, w)).

(** Reading one line at offset [pos]. *)
Definition sys_readline (s : site) (i : N) (pos : nat) : M world string :=
  syscall s (on_inode i (fun nd w =>
    (Ret (first_line_of (drop_chars pos (i_data nd))),
     upd_inode i (with_times (time_now env) (i_mtime nd)) w))).

(** Writing [x] at offset [pos]: when the call fails, a prefix of [x] may
    have reached the file. *)
Definition sys_write (s : site) (i : N) (pos : nat) (x : string) : M world unit :=
  fun w =>
    match inodes w !! i with
    | None => (Raise EBADF, log (EvSys s false) w)
    | Some nd =>
        let put (y : string) : world :=
          upd_inode i (with_data (write_at pos y (i_data nd)) (time_now env)) w in
        match faults env s with
        | None => (Ret tt, log (EvSys s true) (put x))
        | Some ft =>
            (Raise (EnvError (errtxt ft)),
             log (EvSys s false) (put (slice_to (written ft) x)))
        end
    end.

(** [ftruncate(fd, n)]. *)
Definition sys_truncate (s : site) (i : N) (n : nat) : M world unit :=
  syscall s (on_inode i (fun nd w =>
    (Ret tt, upd_inode i (with_data (resize n (i_data nd)) (time_now env)) w))).

(** [os.utime(path, (atime, mtime))]. *)
Definition sys_utime (s : site) (path : string) (at_ mt : N) : M world unit :=
  syscall s (fun w =>
    match stat_ino w path with
    | None => (Raise ENOENT, w)
    | Some i => (Ret tt, upd_inode i (with_times at_ mt) w)
    end).

(** [os.chmod(path, mode)]. *)
Definition sys_chmod (s : site) (path : string) (mode : N) : M world unit :=
  syscall s (fun w =>
    match stat_ino w path with
    | None => (Raise ENOENT, w)
    | Some i => (Ret tt, upd_inode i (with_mode mode) w)
    end).

(** [os.chown(path, uid, gid)]. *)
Definition sys_chown (s : site) (path : string) (u g : N) : M world unit :=
  syscall s (fun w =>
    match stat_ino w path with
    | None => (Raise ENOENT, w)
    | Some i => (Ret tt, upd_inode i (with_owner u g) w)
    end).

(** [os.link(src, dst)]: [dst] becomes a second name of what [src] names. *)
Definition sys_link (s : site) (src dst : string) : M world unit :=
  syscall s (fun w =>
    match names w !! src, names w !! dst with
    | None, _ => (Raise ENOENT, w)
    | Some _, Some _ => (Raise EEXIST, w)
    | Some e, None => (Ret tt, set_names (insert dst e) w)
    end).

(** [os.unlink(path)]. *)
Definition sys_unlink (s : site) (path : string) : M world unit :=
  syscall s (fun w =>
    match names w !! path with
    | None => (Raise ENOENT, w)
    | Some _ => (Ret tt, set_names (delete path) w)
    end).

(** [signal.alarm(secs)]: zero cancels the pending alarm. *)
Definition signal_alarm (secs : N) : M world unit :=
  modify (set_alarm (if (secs =? 0)%N then None else Some secs)).

(** [signal.signal(signal.SIGALRM, h)]. *)
Definition signal_signal (h : sighandler) : M world unit :=
  modify (set_sigalrm h).

End Syscalls.

(** ** File objects and the locals of the appenders *)

Record fileobj : Type := {
  f_ino : N;
  f_pos : nat;
  f_closed : bool
}.

(** The local variables that the [except] clause of an appender reads:
    [fp] is unbound until [open] returns; [orig_length] starts as [None]. *)
Record frame : Type := {
  fp : option fileobj;
  orig_length : option nat
}.

Definition frame0 : frame := {| fp := None; orig_length := None |}.

Definition astate : Type := world * frame.

Definition lift_world {A} (m : M world A) : M astate A :=
  fun st => let '(r, w) := m (fst st) in (r, (w, snd st)).

Definition set_fp (f : fileobj) : M astate unit :=
  modify (fun st => (fst st, {| fp := Some f; orig_length := orig_length (snd st) |})).

Definition set_orig_length (n : option nat) : M astate unit :=
  modify (fun st => (fst st, {| fp := fp (snd st); orig_length := n |})).

Definition get_orig_length : M astate (option nat) :=
  gets (fun st => orig_length (snd st)).

(** Reading the local [fp]: [NameError] while it is unbound. *)
Definition get_fp : M astate fileobj :=
  fun st => match fp (snd st) with
            | Some f => (Ret f, st)
            | None => (Raise NameError, st)
            end.

(** A method call on [fp] that needs an open file: [ValueError] on a
    closed one. *)
Definition open_fp : M astate fileobj :=
  f <- get_fp ;;
  if f_closed f then raise ValueError else ret f.

Definition set_pos (f : fileobj) (p : nat) : M astate unit :=
  set_fp {| f_ino := f_ino f; f_pos := p; f_closed := f_closed f |}.

Section FileObjects.

Variable env : environ.

(** [fp = open(path, 'rb+')]. *)
Definition open_rw (s : site) (path : string) : M astate unit :=
  i <- lift_world (sys_open_rw env s path) ;;
  set_fp {| f_ino := i; f_pos := 0; f_closed := false |}.

(** [lock_file(fp)]. *)
Definition lock_file (s : site) : M astate unit :=
  f <- open_fp ;;
  lift_world (sys_flock env s (f_ino f) true).

(** [unlock_file(fp)]. *)
Definition unlock_file (s : site) : M astate unit :=
  f <- open_fp ;;
  lift_world (sys_flock env s (f_ino f) false).

(** [os.fstat(fp.fileno())]. *)
Definition fstat (s : site) : M astate stat_result :=
  f <- open_fp ;;
  lift_world (sys_fstat env s (f_ino f)).

(** [fp.seek(0, 0)]. *)
Definition seek_start (s : site) : M astate unit :=
  f <- open_fp ;;
  p <- lift_world (sys_seek_start env s (f_ino f)) ;;
  set_pos f p.

(** [fp.seek(0, 2)]. *)
Definition seek_end (s : site) : M astate unit :=
  f <- open_fp ;;
  p <- lift_world (sys_seek_end env s (f_ino f)) ;;
  set_pos f p.

(** [fp.tell()]. *)
Definition tell (s : site) : M astate nat :=
  f <- open_fp ;;
  lift_world (sys_plain env s) ;;
  ret (f_pos f).

(** [fp.readline()]. *)
Definition readline (s : site) : M astate string :=
  f <- open_fp ;;
  line <- lift_world (sys_readline env s (f_ino f) (f_pos f)) ;;
  set_pos f (f_pos f + String.length line) ;;
  ret line.

(** [fp.write(x)]. *)
Definition write (s : site) (x : string) : M astate unit :=
  f <- open_fp ;;
  lift_world (sys_write env s (f_ino f) (f_pos f) x) ;;
  set_pos f (f_pos f + String.length x).

(** [fp.flush()]. *)
Definition flush (s : site) : M astate unit :=
  open_fp ;; lift_world (sys_plain env s).

(** [os.fsync(fp.fileno())]. *)
Definition fsync (s : site) : M astate unit :=
  open_fp ;; lift_world (sys_plain env s).

(** [fp.close()]: the object is closed whether or not the call reports an
    error; closing a closed file does nothing. *)
Definition close (s : site) : M astate unit :=
  f <- get_fp ;;
  if f_closed f then ret tt
  else
    set_fp {| f_ino := f_ino f; f_pos := f_pos f; f_closed := true |} ;;
    lift_world (sys_plain env s).

(** [fp.truncate(n)]. *)
Definition truncate (s : site) (n : nat) : M astate unit :=
  f <- open_fp ;;
  lift_world (sys_truncate env s (f_ino f) n).

End FileObjects.

(** ** Appending to mbox and mmdf files *)

Definition mmdf_marker : string :=
  String "001" (String "001" (String "001" (String "001" nl))).

Definition msg_not_mmdf (path : string) : string :=
  "Destination " +:+ dq +:+ path +:+ dq +:+ " is not an mmdf file!".

Definition msg_not_mbox (path : string) : string :=
  "Destination " +:+ dq +:+ path +:+ dq +:+ " is not an mbox file!".

Definition msg_failure_mmdf (path txt : string) : string :=
  "Failure writing message to mmdf file " +:+ dq +:+ path +:+ dq
  +:+ " (" +:+ txt +:+ ")".

Definition msg_failure_mbox (path txt : string) : string :=
  "Failure writing message to mbox file " +:+ dq +:+ path +:+ dq
  +:+ " (" +:+ txt +:+ ")".

(** [message] with a newline added when its last line is incomplete;
    [message[-1]] raises on the empty message. *)
Definition complete_last_line {S} (message : string) : M S string :=
  last <- lift_result (index_last message) ;;
  if negb (is_char "010" last) then ret (message +:+ nl) else ret message.

Section Appenders.

Variable env : environ.

(** The [try] body of [__deliver_mmdf]. *)
Definition mmdf_body (message mmdf : string) : M astate unit :=
  set_orig_length None ;;
  open_rw env a_open mmdf ;;
  lock_file env a_lock ;;
  status_old <- fstat env a_fstat_old ;;
  seek_start env a_seek_start ;;
  first_line <- readline env a_readline ;;
  if negb (String.eqb first_line EmptyString)
     && negb (String.eqb (slice_to 5 first_line) mmdf_marker) then
    unlock_file env a_abort_unlock ;;
    close env a_abort_close ;;
    raise (DeliveryError (msg_not_mmdf mmdf))
  else
    seek_end env a_seek_end ;;
    n <- tell env a_tell ;;
    set_orig_length (Some n) ;;
    write env a_write_start mmdf_marker ;;
    message <- complete_last_line message ;;
    write env a_write_message message ;;
    write env a_write_blank nl ;;
    write env a_write_end mmdf_marker ;;
    flush env a_flush ;;
    fsync env a_fsync ;;
    status_new <- fstat env a_fstat_new ;;
    unlock_file env a_unlock ;;
    close env a_close ;;
    lift_world (sys_utime env a_utime mmdf (ST_ATIME status_old) (ST_MTIME status_new)).

(** The [try] body of [__deliver_mbox]. *)
Definition mbox_body (message mbox : string) : M astate unit :=
  set_orig_length None ;;
  open_rw env a_open mbox ;;
  lock_file env a_lock ;;
  status_old <- fstat env a_fstat_old ;;
  seek_start env a_seek_start ;;
  first_line <- readline env a_readline ;;
  if negb (String.eqb first_line EmptyString)
     && negb (String.eqb (slice_to 5 first_line) "From ") then
    unlock_file env a_abort_unlock ;;
    close env a_abort_close ;;
    raise (DeliveryError (msg_not_mbox mbox))
  else
    seek_end env a_seek_end ;;
    n <- tell env a_tell ;;
    set_orig_length (Some n) ;;
    message <- complete_last_line message ;;
    write env a_write_message message ;;
    write env a_write_blank nl ;;
    flush env a_flush ;;
    fsync env a_fsync ;;
    status_new <- fstat env a_fstat_new ;;
    unlock_file env a_unlock ;;
    close env a_close ;;
    lift_world (sys_utime env a_utime mbox (ST_ATIME status_old) (ST_MTIME status_new)).

(** The inner [try] of the [except IOError] clause, the same text in both
    appenders: truncate when the file is open and its length is known,
    then unlock and close; every error of the three is dropped. *)
Definition rollback : M astate unit :=
  try_except
    (f <- get_fp ;;
     ol <- get_orig_length ;;
     match f_closed f, ol with
     | false, Some n => truncate env h_truncate n
     | _, _ => ret tt
     end ;;
     unlock_file env h_unlock ;;
     close env h_close)
    any_error
    (fun _ => ret tt).

Definition mmdf_handler (mmdf : string) (e : exn) : M astate unit :=
  rollback ;;
  raise (DeliveryError (msg_failure_mmdf mmdf (exn_text e))).

Definition mbox_handler (mbox : string) (e : exn) : M astate unit :=
  rollback ;;
  raise (DeliveryError (msg_failure_mbox mbox (exn_text e))).

(** Run a function body with its own locals. *)
Definition with_frame {A} (m : M astate A) : M world A :=
  fun w => let '(r, st) := m (w, frame0) in (r, fst st).

(** [Deliver.__deliver_mmdf]. *)
Definition __deliver_mmdf (message mmdf : string) : M world unit :=
  with_frame (try_except (mmdf_body message mmdf) is_env_error (mmdf_handler mmdf)).

(** [Deliver.__deliver_mbox]. *)
Definition __deliver_mbox (message mbox : string) : M world unit :=
  with_frame (try_except (mbox_body message mbox) is_env_error (mbox_handler mbox)).

End Appenders.

(** ** Delivery into a maildir *)

(** ['%lu' % n] and ['%d' % n] for a natural number, ['%lx' % n]. *)
Definition fmt_dec (n : N) : string := DecimalString.NilZero.string_of_uint (N.to_uint n).
Definition fmt_hex (n : N) : string :=
  HexadecimalString.NilZero.string_of_uint (N.to_hex_uint n).

Definition msg_not_maildir (dir : string) : string :=
  "not a Maildir! (" +:+ dir +:+ ")".

Definition msg_exists (path : string) : string := path +:+ "already exists!".

Definition msg_failure_writing (path txt : string) : string :=
  "Failure writing file " +:+ path +:+ " (" +:+ txt +:+ ")".

Definition msg_failure_renaming (src dst : string) : string :=
  "failure renaming " +:+ dq +:+ src +:+ dq +:+ " to " +:+ dq +:+ dst +:+ dq.

Section Maildir.

Variable env : environ.

(** [hostname.replace('/', '\\057').replace(':', '\\072')]. *)
Definition safe_hostname : string :=
  replace_char ":" "\072" (replace_char "/" "\057" (gethostname env)).

(** [os.path.join(dir_tmp, '%lu.P%d.%s' % (now, pid, hostname))]. *)
Definition fname_tmp_of (dir : string) : string :=
  path_join (path_join dir "tmp")
    (fmt_dec (time_now env) +:+ ".P" +:+ fmt_dec (getpid env) +:+ "." +:+ safe_hostname).

(** [os.path.join(dir_new, '%lu.V%lxI%lx.%s' % (now, dev, ino, hostname))]. *)
Definition fname_new_of (dir : string) (fstatus : stat_result) : string :=
  path_join (path_join dir "new")
    (fmt_dec (time_now env) +:+ ".V" +:+ fmt_hex (ST_DEV fstatus) +:+ "I"
     +:+ fmt_hex (ST_INO fstatus) +:+ "." +:+ safe_hostname).

(** [with open(path, 'w') as f: body f]: the file is closed when the block
    is left, also by an exception; an error of that [close] is the one
    that propagates. *)
Definition with_open_w {A} (path : string) (body : N -> M world A) : M world A :=
  f <- sys_open_w env m_open path ;;
  fun w =>
    match body f w with
    | (Ret a, w1) => (sys_plain env m_close ;; ret a) w1
    | (Raise e, w1) => (sys_plain env m_close ;; raise e) w1
    end.

(** The first [try] block of [__deliver_maildir]: write the message to the
    temporary file, restrict its mode, and give it to the owner of the
    maildir when that is allowed. *)
Definition maildir_write (message fname_tmp : string) (maildir_owner maildir_group : N)
  : M world unit :=
  try_except
    (with_open_w fname_tmp (fun f =>
       sys_write env m_write f 0 message ;;
       sys_plain env m_flush ;;
       sys_plain env m_fsync) ;;
     sys_chmod env m_chmod fname_tmp 384 ;;
     try_except
       (sys_chown env m_chown fname_tmp maildir_owner maildir_group)
       is_env_error
       (fun _ => ret tt))
    is_env_error
    (fun o =>
       signal_alarm 0 ;;
       raise (DeliveryError (msg_failure_writing fname_tmp (exn_text o)))).

(** The second [try] block: move the file from [tmp] to [new]. *)
Definition maildir_move (fname_tmp fname_new : string) : M world unit :=
  try_except
    (sys_link env m_link fname_tmp fname_new ;;
     sys_unlink env m_unlink fname_tmp)
    is_env_error
    (fun _ =>
       signal_alarm 0 ;;
       try_except (sys_unlink env m_cleanup_unlink fname_tmp) any_error
         (fun _ => ret tt) ;;
       raise (DeliveryError (msg_failure_renaming fname_tmp fname_new))).

(** [Deliver.__deliver_maildir]. *)
Definition __deliver_maildir (message dir : string) : M world unit :=
  signal_signal alarm_handler ;;
  signal_alarm (24 * 60 * 60) ;;
  let dir_tmp := path_join dir "tmp" in
  let dir_cur := path_join dir "cur" in
  let dir_new := path_join dir "new" in
  w <- gets id ;;
  if negb (path_isdir w dir_tmp && path_isdir w dir_cur && path_isdir w dir_new) then
    raise (DeliveryError (msg_not_maildir dir))
  else
  let fname_tmp := fname_tmp_of dir in
  if path_exists w fname_tmp then
    raise (DeliveryError (msg_exists fname_tmp))
  else
  s_maildir <- sys_stat env m_stat_maildir dir ;;
  let maildir_owner := ST_UID s_maildir in
  let maildir_group := ST_GID s_maildir in
  maildir_write message fname_tmp maildir_owner maildir_group ;;
  fstatus <- sys_stat env m_stat_tmp fname_tmp ;;
  let fname_new := fname_new_of dir fstatus in
  w <- gets id ;;
  if path_exists w fname_new then
    raise (DeliveryError (msg_exists fname_new))
  else
  maildir_move fname_tmp fname_new ;;
  signal_alarm 0 ;;
  signal_signal SIG_DFL.

End Maildir.

(** ** The delivery engine *)

Definition msg_missing (dest : string) : string :=
  "Destination " +:+ dq +:+ dest +:+ dq +:+ " does not exist!".

Definition msg_symlink (dest : string) : string :=
  "Destination " +:+ dq +:+ dest +:+ dq +:+ " is a symlink!".

(** [boxtype in ('mmdf', 'mbox', 'maildir')], and the other two tests. *)
Definition is_file_based (t : delivery_type) : bool :=
  match t with mmdf | mbox | maildir => true | _ => false end.

Definition is_mailbox_file (t : delivery_type) : bool :=
  match t with mmdf | mbox => true | _ => false end.

Definition wants_unixfrom (t : delivery_type) : bool :=
  match t with program | mmdf | mbox => true | _ => false end.

Section Engine.

(** The message object and what [Util] does with it. *)
Variable msg_t : Type.
Variable purge_headers : msg_t -> msg_t.
Variable msg_as_string : msg_t -> bool -> bool -> string.

Variable env : environ.

(** Modelled from the spec: [Util.runcmd_checked] is not part of the source
    at hand; by section 4.5 it hands the message to the command and turns
    an abnormal end of the command into a delivery error. *)
Definition runcmd_checked (prog message : string) : M world unit :=
  modify (log (EvRuncmd prog message)) ;;
  try_except (sys_plain env x_runcmd) is_env_error
    (fun e => raise (DeliveryError (exn_text e))).

(** Modelled from the spec: [Util.sendmail] is not part of the source at
    hand; by section 4.5 it hands the message to the transport with the
    envelope sender. *)
Definition sendmail (message address : string) (env_sender : option string)
  : M world unit :=
  modify (log (EvSendmail message address env_sender)) ;;
  try_except (sys_plain env x_sendmail) is_env_error
    (fun e => raise (DeliveryError (exn_text e))).

(** [Deliver.__deliver_program]. *)
Definition __deliver_program (message prog : string) : M world unit :=
  runcmd_checked prog message.

(** [Deliver.__deliver_forward]. *)
Definition __deliver_forward (message address : string) : M world unit :=
  sendmail message address (sender env).

(** The entry ['filter': sys.stdout.write] of the dispatch table: it is
    called with two arguments, which [write] does not accept. *)
Definition stdout_write2 (message dest : string) : M world unit :=
  raise TypeError.

(** [Deliver.deliver], for the message [msg] and the option string. *)
Definition deliver (msg : msg_t) (option : string) : M world unit :=
  modify (log EvPurgeHeaders) ;;
  let msg := purge_headers msg in
  instr <- lift_result (get_instructions (users env) option) ;;
  let '(boxtype, dest) := instr in
  w <- gets id ;;
  (if is_file_based boxtype && negb (path_exists w dest) then
     raise (DeliveryError (msg_missing dest))
   else ret tt) ;;
  (if is_mailbox_file boxtype && path_islink w dest then
     raise (DeliveryError (msg_symlink dest))
   else ret tt) ;;
  let deliver_ :=
    match boxtype with
    | program => __deliver_program
    | forward => __deliver_forward
    | mmdf => __deliver_mmdf env
    | mbox => __deliver_mbox env
    | maildir => __deliver_maildir env
    | filter => stdout_write2
    end in
  let escape_from := is_mailbox_file boxtype in
  let add_from_ := wants_unixfrom boxtype in
  modify (log (EvMsgAsString escape_from add_from_)) ;;
  let message := msg_as_string msg escape_from add_from_ in
  deliver_ message dest.

End Engine.

(** ** The parsing rules as the specification words them *)








(** Every character of [s] satisfies [p]. *)
Fixpoint all_chars (p : ascii -> bool) (s : string) : bool :=
  match s with
  | EmptyString => true
  | String c r => p c && all_chars p r
  end.




(** ** Concrete surroundings for the examples *)

Definition example_users : userdb :=
  {| own_home := Some "/home/alice"%string;
     pw_dir := fun u => if String.eqb u "bob" then Some "/home/bob"%string else None |}.

Definition no_faults : site -> option fault := fun _ => None.


Definition example_env (f : site -> option fault) : environ :=
  {| faults := f; users := example_users; time_now := 1043715037; getpid := 28810;
     gethostname := "hrothgar"; getuid := 1000; getgid := 100; umask := 18;
     the_dev := 134404; fresh_ino := 101115; sender := Some "alice@example.com"%string |}.

Definition example_file (d : string) : inode :=
  {| i_type := Regular; i_data := d; i_atime := 5; i_mtime := 6; i_locked := false;
     i_mode := 384; i_uid := 1000; i_gid := 100 |}.

Definition example_dir : inode :=
  {| i_type := Directory; i_data := EmptyString; i_atime := 5; i_mtime := 6; i_locked := false;
     i_mode := 448; i_uid := 1000; i_gid := 100 |}.

(** An empty mailbox, a file that is no mailbox, an mbox and an mmdf file
    with one message each, a link to a mailbox, a link to nothing, a
    maildir, and a directory that is no maildir. *)
Definition example_world : world :=
  {| names := list_to_map
       [ ("/var/mail/alice"%string, Hard 1); ("/var/mail/notes"%string, Hard 2);
         ("/var/mail/box"%string, Hard 3); ("/var/mail/mmdf"%string, Hard 4);
         ("/var/mail/link"%string, Sym "/var/mail/box");
         ("/var/mail/dangling"%string, Sym "/nowhere");
         ("/home/alice/Maildir"%string, Hard 10);
         ("/home/alice/Maildir/tmp"%string, Hard 11);
         ("/home/alice/Maildir/cur"%string, Hard 12);
         ("/home/alice/Maildir/new"%string, Hard 13);
         ("/home/alice/stuff"%string, Hard 20);
         ("/home/alice/stuff/tmp"%string, Hard 21);
         ("/home/alice/stuff/cur"%string, Hard 22) ];
     inodes := list_to_map
       [ (1%N, example_file EmptyString); (2%N, example_file ("Not an mbox" +:+ nl));
         (3%N, example_file ("From bob" +:+ nl +:+ "hi" +:+ nl +:+ nl));
         (4%N, example_file (mmdf_marker +:+ "hi" +:+ nl +:+ nl +:+ mmdf_marker));
         (10%N, example_dir); (11%N, example_dir); (12%N, example_dir);
         (13%N, example_dir); (20%N, example_dir); (21%N, example_dir);
         (22%N, example_dir) ];
     alarm := None; sigalrm := SIG_DFL; trace := [] |}.

(** A message object that is its own text; its serialization puts the
    envelope line in front when asked to. *)
Definition example_serialize (msg : string) (mangle_from_ unixfrom : bool) : string :=
  if unixfrom then "From alice Mon Jan 27 2003" +:+ nl +:+ msg else msg.

(** ** What a computation may log and raise *)

(** From every state, [m] adds to the trace read by [tr] only events of
    class [P], and raises only exceptions of class [Q]. *)
Definition obeys {S A} (tr : S -> list event) (P : event -> Prop) (Q : exn -> Prop)
    (m : M S A) : Prop :=
  forall s,
    (exists l, tr (snd (m s)) = (l ++ tr s)%list /\ Forall P l)
    /\ (forall e, fst (m s) = Raise e -> Q e).

Definition atrace (st : astate) : list event := trace (fst st).



Definition is_delivery_error (e : exn) : bool :=
  match e with DeliveryError _ => true | _ => false end.

(** A class of exceptions that leaves out delivery errors only. *)
Definition benign (Q : exn -> Prop) : Prop :=
  forall e, is_delivery_error e = false -> Q e.

(** A class of events with every system call in it. *)
Definition open_to_syscalls (P : event -> Prop) : Prop :=
  forall s ok, P (EvSys s ok).

(** The exceptions that are not a delivery error, and the delivery errors
    whose text is in [D]. *)
Definition raises_only (D : string -> Prop) (e : exn) : Prop :=
  match e with DeliveryError m => D m | _ => True end.

(** ** States of an append in progress *)



(** The world [w0] with inode [i] now being [nd] and the events [l] added
    to its trace. *)
Definition setw (w0 : world) (i : N) (nd : inode) (l : list event) : world :=
  {| names := names w0; inodes := <[i:=nd]> (inodes w0); alarm := alarm w0;
     sigalrm := sigalrm w0; trace := (l ++ trace w0)%list |}.


(** ** The two mailbox formats, as section 4.3 describes them *)











(** ** Events of a maildir delivery *)

(** The calls of the first [try] block whose failure the block reports. *)
Definition write_site (s : site) : bool :=
  match s with
  | m_open | m_write | m_flush | m_fsync | m_close | m_chmod => true
  | _ => false
  end.

(** The calls of the second [try] block. *)
Definition move_site (s : site) : bool :=
  match s with
  | m_link | m_unlink | m_cleanup_unlink => true
  | _ => false
  end.

(** No call of the second block is among the events. *)
Definition before_move (l : list event) : bool :=
  forallb (fun e => match e with EvSys s _ => negb (move_site s) | _ => true end) l.

(** Some call of the first block failed. *)
Definition write_failed (l : list event) : bool :=
  existsb (fun e => match e with EvSys s false => write_site s | _ => false end) l.

(** What follows the checks of the final name in [__deliver_maildir]. *)
Definition maildir_finish (env : environ) (fname_tmp fname_new : string) : M world unit :=
  maildir_move env fname_tmp fname_new ;;
  signal_alarm 0 ;;
  signal_signal SIG_DFL.

(** One call at site [s] led from [w] to [w']: it is logged, and the
    alarm is as it was. *)
Definition stepped (s : site) (ok : bool) (w w' : world) : Prop :=
  trace w' = EvSys s ok :: trace w /\ alarm w' = alarm w.

(** The outcome of a call at site [s] from [w]: a value after a logged
    success, or an I/O error after a logged failure. *)
Definition call_outcome {A} (s : site) (w : world) (r : result A) (w' : world) : Prop :=
  (exists a, r = Ret a /\ stepped s true w w')
  \/ (exists e, r = Raise e /\ is_env_error e = true /\ stepped s false w w').




(** ** Names in a maildir *)

(** A character that may stand in the name of a message file: a slash
    would leave the directory, a colon starts the flags of the message. *)
Definition name_char (c : ascii) : bool :=
  negb (is_char "/" c) && negb (is_char ":" c).

(** ** What a maildir delivery leaves alone *)

(** From a world in [I], [m] ends in a world in [I], and what it returns
    is in [R]. *)
Definition keeps {A} (I : world -> Prop) (R : A -> Prop) (m : M world A) : Prop :=
  forall w, I w -> I (snd (m w)) /\ forall a, fst (m w) = Ret a -> R a.

(** The worlds reached from [w0] by a delivery that writes under the name
    [t] to the new inode [f]: every name and every file of [w0] is as it
    was, and [t] is free or names [f]. *)
Definition spares (w0 : world) (t : string) (f : N) (w : world) : Prop :=
  (forall p e, names w0 !! p = Some e -> names w !! p = Some e)
  /\ (forall j nd, inodes w0 !! j = Some nd -> inodes w !! j = Some nd)
  /\ (names w !! t = None \/ names w !! t = Some (Hard f)).


(** ** Events of an append *)


(** After the events [l], most recent first, the lock is held: it was
    obtained and no unlock has succeeded since. *)
Fixpoint held (l : list event) : bool :=
  match l with
  | [] => false
  | EvSys a_lock true :: _ => true
  | EvSys a_unlock true :: _ | EvSys a_abort_unlock true :: _
  | EvSys h_unlock true :: _ => false
  | _ :: r => held r
  end.




(** * Properties *)

(** ** Strings *)


Lemma last_or_app_cons d l c r : last_or d (l +:+ String c r) = last_or c r.
Proof.
  revert d. induction l as [|x l IH]; intros d; [reflexivity|].
  change (last_or x (l +:+ String c r) = last_or c r). apply IH.
Qed.



Lemma append_assoc (a b c : string) : (a +:+ b) +:+ c = a +:+ (b +:+ c).
Proof.
  induction a as [|x a IH]; [reflexivity|].
  change (String x ((a +:+ b) +:+ c) = String x (a +:+ (b +:+ c))). congruence.
Qed.



(** ** The instruction parser *)









(** C9. On the empty instruction string the parser raises [IndexError]:
    it does not return the unrecognised instruction, and neither
    [get_instructions] nor [deliver] raises the delivery error. *)
Theorem empty_instruction_raises_index_error :
  (forall db, _get_instructions db EmptyString = Raise IndexError)
  /\ (forall db, _get_instructions db EmptyString <> Ret unrecognized)
  /\ (forall db, get_instructions db EmptyString = Raise IndexError)
  /\ (forall db txt, get_instructions db EmptyString <> Raise (DeliveryError txt))
  /\ (forall (msg_t : Type) purge_headers msg_as_string env (msg : msg_t) w,
        deliver msg_t purge_headers msg_as_string env msg EmptyString w
        = (Raise IndexError, log EvPurgeHeaders w)).
Proof.
  repeat split; try discriminate.
Qed.

(** ** Rules for [obeys] *)

Section ObeysRules.

Context {S : Type} (tr : S -> list event) (P : event -> Prop) (Q : exn -> Prop).

Lemma obeys_ret {A} (a : A) : obeys tr P Q (ret a).
Proof. intros s. split; [exists []; auto | discriminate]. Qed.

Lemma obeys_raise {A} e : Q e -> obeys tr P Q (@raise S A e).
Proof.
  intros He s. split; [exists []; auto |].
  intros e' [= <-]. exact He.
Qed.

Lemma obeys_gets {A} (f : S -> A) : obeys tr P Q (gets f).
Proof. intros s. split; [exists []; auto | discriminate]. Qed.

Lemma obeys_lift_result {A} (r : result A) :
  (forall e, r = Raise e -> Q e) -> obeys tr P Q (lift_result r).
Proof. intros Hr s. split; [exists []; auto | exact Hr]. Qed.

Lemma obeys_modify (f : S -> S) :
  (forall s, exists l, tr (f s) = (l ++ tr s)%list /\ Forall P l) ->
  obeys tr P Q (modify f).
Proof. intros Hf s. split; [apply Hf | discriminate]. Qed.

Lemma obeys_bind {A B} (m : M S A) (k : A -> M S B) :
  obeys tr P Q m -> (forall a, obeys tr P Q (k a)) -> obeys tr P Q (bind m k).
Proof.
  intros Hm Hk s. unfold bind.
  destruct (Hm s) as [(l & El & Hl) Hr].
  destruct (m s) as [[a|e] s1]; simpl in *.
  - destruct (Hk a s1) as [(l' & El' & Hl') Hr'].
    split; [|exact Hr'].
    exists (l' ++ l)%list. rewrite El', El, app_assoc.
    split; [reflexivity | apply Forall_app; auto].
  - split; [exists l; auto |].
    intros e' [= <-]. apply Hr. reflexivity.
Qed.

Lemma obeys_try {A} (body : M S A) (catches : exn -> bool) (handler : exn -> M S A) :
  obeys tr P (fun e => if catches e then True else Q e) body ->
  (forall e, obeys tr P Q (handler e)) ->
  obeys tr P Q (try_except body catches handler).
Proof.
  intros Hb Hh s. unfold try_except.
  destruct (Hb s) as [(l & El & Hl) Hr].
  destruct (body s) as [[a|e] s1]; simpl in *.
  - split; [exists l; auto | discriminate].
  - destruct (catches e) eqn:Hc.
    + destruct (Hh e s1) as [(l' & El' & Hl') Hr'].
      split; [|exact Hr'].
      exists (l' ++ l)%list. rewrite El', El, app_assoc.
      split; [reflexivity | apply Forall_app; auto].
    + split; [exists l; auto |].
      intros e' [= <-]. specialize (Hr e eq_refl). rewrite Hc in Hr. exact Hr.
Qed.

Lemma obeys_weaken {A} (Q' : exn -> Prop) (m : M S A) :
  obeys tr P Q' m -> (forall e, Q' e -> Q e) -> obeys tr P Q m.
Proof.
  intros Hm HQ s. destruct (Hm s) as [Hl Hr]. split; [exact Hl | auto].
Qed.

End ObeysRules.

Lemma benign_try (Q : exn -> Prop) (catches : exn -> bool) :
  benign Q -> benign (fun e => if catches e then True else Q e).
Proof. intros HQ e He. destruct (catches e); auto. Qed.

Section ObeysSyscalls.

Context (env : environ) (P : event -> Prop) (Q : exn -> Prop).
Context (HP : open_to_syscalls P) (HQ : benign Q).

Lemma obeys_syscall {A} (s : site) (op : world -> result A * world) :
  (forall w, trace (snd (op w)) = trace w
             /\ forall e, fst (op w) = Raise e -> is_delivery_error e = false) ->
  obeys trace P Q (syscall env s op).
Proof using HP HQ.
  intros Hop w. unfold syscall.
  destruct (faults env s) as [f|].
  - split; [exists [EvSys s false]; simpl; auto |].
    intros e [= <-]. apply HQ. reflexivity.
  - destruct (Hop w) as [Ht He]. destruct (op w) as [[a|e] w1]; simpl in *.
    + split; [exists [EvSys s true]; simpl; rewrite Ht; auto | discriminate].
    + split; [exists [EvSys s false]; simpl; rewrite Ht; auto |].
      intros e' [= <-]. apply HQ, He. reflexivity.
Qed.

Ltac op_cases :=
  intros w; unfold on_inode;
  repeat match goal with
         | |- context [match ?x with _ => _ end] => destruct x
         end;
  simpl; (split; [reflexivity | intros ? [= <-]; reflexivity])
         || (split; [reflexivity | discriminate]).

Lemma obeys_open_rw s path : obeys trace P Q (sys_open_rw env s path).
Proof using HP HQ. apply obeys_syscall. op_cases. Qed.

Lemma obeys_open_w s path : obeys trace P Q (sys_open_w env s path).
Proof using HP HQ. apply obeys_syscall. op_cases. Qed.

Lemma obeys_flock s i held : obeys trace P Q (sys_flock env s i held).
Proof using HP HQ. apply obeys_syscall. op_cases. Qed.

Lemma obeys_fstat s i : obeys trace P Q (sys_fstat env s i).
Proof using HP HQ. apply obeys_syscall. op_cases. Qed.

Lemma obeys_stat s path : obeys trace P Q (sys_stat env s path).
Proof using HP HQ. apply obeys_syscall. op_cases. Qed.

Lemma obeys_seek_start s i : obeys trace P Q (sys_seek_start env s i).
Proof using HP HQ. apply obeys_syscall. op_cases. Qed.

Lemma obeys_seek_end s i : obeys trace P Q (sys_seek_end env s i).
Proof using HP HQ. apply obeys_syscall. op_cases. Qed.

Lemma obeys_plain s : obeys trace P Q (sys_plain env s).
Proof using HP HQ. apply obeys_syscall. op_cases. Qed.

Lemma obeys_sys_readline s i pos : obeys trace P Q (sys_readline env s i pos).
Proof using HP HQ. apply obeys_syscall. op_cases. Qed.

Lemma obeys_sys_truncate s i n : obeys trace P Q (sys_truncate env s i n).
Proof using HP HQ. apply obeys_syscall. op_cases. Qed.

Lemma obeys_utime s path a m : obeys trace P Q (sys_utime env s path a m).
Proof using HP HQ. apply obeys_syscall. op_cases. Qed.

Lemma obeys_chmod s path m : obeys trace P Q (sys_chmod env s path m).
Proof using HP HQ. apply obeys_syscall. op_cases. Qed.

Lemma obeys_chown s path u g : obeys trace P Q (sys_chown env s path u g).
Proof using HP HQ. apply obeys_syscall. op_cases. Qed.

Lemma obeys_link s src dst : obeys trace P Q (sys_link env s src dst).
Proof using HP HQ. apply obeys_syscall. op_cases. Qed.

Lemma obeys_unlink s path : obeys trace P Q (sys_unlink env s path).
Proof using HP HQ. apply obeys_syscall. op_cases. Qed.

Lemma obeys_sys_write s i pos x : obeys trace P Q (sys_write env s i pos x).
Proof using HP HQ.
  intros w. unfold sys_write.
  destruct (inodes w !! i) as [nd|]; [destruct (faults env s) as [ft|]|]; simpl.
  - split; [exists [EvSys s false]; auto |]. intros e [= <-]. apply HQ. reflexivity.
  - split; [exists [EvSys s true]; auto | discriminate].
  - split; [exists [EvSys s false]; auto |]. intros e [= <-]. apply HQ. reflexivity.
Qed.

Lemma obeys_signal_alarm secs : obeys trace P Q (signal_alarm secs).
Proof. apply obeys_modify. intros w. exists []. auto. Qed.

Lemma obeys_signal_signal h : obeys trace P Q (signal_signal h).
Proof. apply obeys_modify. intros w. exists []. auto. Qed.


Lemma obeys_lift_world {A} (m : M world A) :
  obeys trace P Q m -> obeys atrace P Q (lift_world m).
Proof.
  intros Hm [w fr]. unfold lift_world, atrace. simpl.
  destruct (Hm w) as [Hl Hr]. destruct (m w) as [r w1]. simpl in *. auto.
Qed.

Lemma obeys_with_frame {A} (m : M astate A) :
  obeys atrace P Q m -> obeys trace P Q (with_frame m).
Proof.
  intros Hm w. unfold with_frame.
  destruct (Hm (w, frame0)) as [Hl Hr].
  destruct (m (w, frame0)) as [r st]. simpl in *. auto.
Qed.

Lemma obeys_frame_update (f : astate -> astate) :
  (forall st, fst (f st) = fst st) -> obeys atrace P Q (modify f).
Proof.
  intros Hf. apply obeys_modify. intros st. exists []. unfold atrace.
  rewrite Hf. auto.
Qed.

Lemma obeys_get_fp : obeys atrace P Q get_fp.
Proof using HQ.
  intros st. unfold get_fp. destruct (fp (snd st)); simpl.
  - split; [exists []; auto | discriminate].
  - split; [exists []; auto |]. intros e [= <-]. apply HQ. reflexivity.
Qed.

Lemma obeys_open_fp : obeys atrace P Q open_fp.
Proof using HQ.
  unfold open_fp. apply obeys_bind; [apply obeys_get_fp|].
  intros f. destruct (f_closed f); [apply obeys_raise, HQ; reflexivity | apply obeys_ret].
Qed.

End ObeysSyscalls.

Lemma benign_raises_only D : benign (raises_only D).
Proof. intros [] He; simpl; auto; discriminate. Qed.

Ltac benign_tac :=
  repeat apply benign_try; first [assumption | apply benign_raises_only].

Ltac obeys_step :=
  match goal with
  | |- obeys _ _ _ (bind _ _) => apply obeys_bind; [|intros ?]
  | |- obeys _ _ _ (ret _) => apply obeys_ret
  | |- obeys _ _ _ (gets _) => apply obeys_gets
  | |- obeys _ _ _ (try_except _ _ _) => apply obeys_try; [|intros ?]
  | |- obeys _ _ _ (lift_world _) => apply obeys_lift_world
  | |- obeys _ _ _ (with_frame _) => apply obeys_with_frame
  | |- obeys _ _ _ (sys_open_rw _ _ _) => apply obeys_open_rw; [assumption | benign_tac]
  | |- obeys _ _ _ (sys_open_w _ _ _) => apply obeys_open_w; [assumption | benign_tac]
  | |- obeys _ _ _ (sys_flock _ _ _ _) => apply obeys_flock; [assumption | benign_tac]
  | |- obeys _ _ _ (sys_fstat _ _ _) => apply obeys_fstat; [assumption | benign_tac]
  | |- obeys _ _ _ (sys_stat _ _ _) => apply obeys_stat; [assumption | benign_tac]
  | |- obeys _ _ _ (sys_seek_start _ _ _) => apply obeys_seek_start; [assumption | benign_tac]
  | |- obeys _ _ _ (sys_seek_end _ _ _) => apply obeys_seek_end; [assumption | benign_tac]
  | |- obeys _ _ _ (sys_plain _ _) => apply obeys_plain; [assumption | benign_tac]
  | |- obeys _ _ _ (sys_readline _ _ _ _) => apply obeys_sys_readline; [assumption | benign_tac]
  | |- obeys _ _ _ (sys_truncate _ _ _ _) => apply obeys_sys_truncate; [assumption | benign_tac]
  | |- obeys _ _ _ (sys_utime _ _ _ _ _) => apply obeys_utime; [assumption | benign_tac]
  | |- obeys _ _ _ (sys_chmod _ _ _ _) => apply obeys_chmod; [assumption | benign_tac]
  | |- obeys _ _ _ (sys_chown _ _ _ _ _) => apply obeys_chown; [assumption | benign_tac]
  | |- obeys _ _ _ (sys_link _ _ _ _) => apply obeys_link; [assumption | benign_tac]
  | |- obeys _ _ _ (sys_unlink _ _ _) => apply obeys_unlink; [assumption | benign_tac]
  | |- obeys _ _ _ (sys_write _ _ _ _ _) => apply obeys_sys_write; [assumption | benign_tac]
  | |- obeys _ _ _ (signal_alarm _) => apply obeys_signal_alarm
  | |- obeys _ _ _ (signal_signal _) => apply obeys_signal_signal
  | |- obeys _ _ _ get_fp => apply obeys_get_fp; benign_tac
  | |- obeys _ _ _ open_fp => apply obeys_open_fp; benign_tac
  | |- obeys _ _ _ (set_fp _) => apply obeys_frame_update; reflexivity
  | |- obeys _ _ _ (set_pos _ _) => apply obeys_frame_update; reflexivity
  | |- obeys _ _ _ (set_orig_length _) => apply obeys_frame_update; reflexivity
  | |- obeys _ _ _ get_orig_length => apply obeys_gets
  | |- obeys _ _ _ (raise _) => apply obeys_raise; simpl; try exact I
  | |- obeys _ _ _ (if ?b then _ else _) => destruct b
  | |- obeys _ _ _ (match ?x with _ => _ end) => destruct x
  end.

Ltac obeys_tac := repeat obeys_step.

Section ObeysFunctions.

Context (env : environ) (P : event -> Prop) (HP : open_to_syscalls P).

Lemma obeys_complete_last_line {S} (tr : S -> list event) Q message :
  benign Q -> obeys tr P Q (complete_last_line message).
Proof.
  intros HQ. unfold complete_last_line. apply obeys_bind.
  - apply obeys_lift_result. intros e He. apply HQ.
    destruct message; simpl in He; [injection He as <-; reflexivity | discriminate].
  - intros c. obeys_tac.
Qed.

Lemma obeys_rollback Q : benign Q -> obeys atrace P Q (rollback env).
Proof using HP.
  intros HQ. unfold rollback, truncate, unlock_file, close. obeys_tac.
Qed.

Lemma obeys_deliver_mbox (D : string -> Prop) message mbox :
  D (msg_not_mbox mbox) -> (forall txt, D (msg_failure_mbox mbox txt)) ->
  obeys trace P (raises_only D) (__deliver_mbox env message mbox).
Proof using HP.
  intros D1 D2.
  unfold __deliver_mbox, mbox_body, mbox_handler, open_rw, lock_file, unlock_file,
    fstat, seek_start, seek_end, tell, readline, write, flush, fsync, close.
  obeys_tac; try (apply obeys_rollback; benign_tac);
    try (apply obeys_complete_last_line; benign_tac); auto.
Qed.

Lemma obeys_deliver_mmdf (D : string -> Prop) message mmdf :
  D (msg_not_mmdf mmdf) -> (forall txt, D (msg_failure_mmdf mmdf txt)) ->
  obeys trace P (raises_only D) (__deliver_mmdf env message mmdf).
Proof using HP.
  intros D1 D2.
  unfold __deliver_mmdf, mmdf_body, mmdf_handler, open_rw, lock_file, unlock_file,
    fstat, seek_start, seek_end, tell, readline, write, flush, fsync, close.
  obeys_tac; try (apply obeys_rollback; benign_tac);
    try (apply obeys_complete_last_line; benign_tac); auto.
Qed.

End ObeysFunctions.

Section ObeysEngine.

Context (env : environ) (P : event -> Prop) (HP : open_to_syscalls P).





End ObeysEngine.

(** ** The delivery engine *)





(** ** Checks on the destination *)

Lemma append_inj_l (a x y : string) : a +:+ x = a +:+ y -> x = y.
Proof.
  induction a as [|c a IH]; intros H; [exact H|].
  change (String c (a +:+ x) = String c (a +:+ y)) in H.
  injection H as H. auto.
Qed.

Lemma missing_is_not_symlink d : msg_missing d <> msg_symlink d.
Proof.
  unfold msg_missing, msg_symlink. intros H.
  do 4 apply append_inj_l in H. discriminate.
Qed.

Lemma not_mbox_is_not_symlink d : msg_not_mbox d <> msg_symlink d.
Proof.
  unfold msg_not_mbox, msg_symlink. intros H.
  do 4 apply append_inj_l in H. discriminate.
Qed.

Lemma not_mmdf_is_not_symlink d : msg_not_mmdf d <> msg_symlink d.
Proof.
  unfold msg_not_mmdf, msg_symlink. intros H.
  do 4 apply append_inj_l in H. discriminate.
Qed.

Lemma failure_mbox_is_not_symlink d txt : msg_failure_mbox d txt <> msg_symlink d.
Proof. unfold msg_failure_mbox, msg_symlink. intros H. discriminate. Qed.

Lemma failure_mmdf_is_not_symlink d txt : msg_failure_mmdf d txt <> msg_symlink d.
Proof. unfold msg_failure_mmdf, msg_symlink. intros H. discriminate. Qed.

Lemma final_name_more_fuel k ns p q :
  final_name k ns p = Some q -> final_name (S k) ns p = Some q.
Proof.
  revert p. induction k as [|k IH]; intros p H.
  - cbn [final_name] in *. destruct (ns !! p) as [[i|t]|]; auto. discriminate.
  - change (final_name (S (S k)) ns p)
      with (match ns !! p with
            | Some (Sym t) => final_name (S k) ns t
            | _ => Some p
            end).
    cbn [final_name] in H.
    destruct (ns !! p) as [[i|t]|]; auto.
Qed.

(** What [stat] finds behind a symbolic link is what it finds at the
    target of the link. *)
Lemma stat_through_link w p t nd :
  names w !! p = Some (Sym t) -> stat w p = Some nd -> stat w t = Some nd.
Proof.
  unfold stat, stat_ino, MAXSYMLINKS. intros Hp.
  change (final_name 40 (names w) p)
    with (match names w !! p with
          | Some (Sym t) => final_name 39 (names w) t
          | _ => Some p
          end).
  rewrite Hp.
  destruct (final_name 39 (names w) t) as [q|] eqn:Hq; [|discriminate].
  rewrite (final_name_more_fuel _ _ _ _ Hq). auto.
Qed.

Lemma raise_delivery_inj {A S} (a b : string) (s s' : S) :
  (@Raise A (DeliveryError a), s) = (Raise (DeliveryError b), s') -> a = b.
Proof. intros [= H _]. exact H. Qed.

Lemma everything_is_an_event : open_to_syscalls (fun _ => True).
Proof. intros s ok. exact I. Qed.

(** C10. For the mbox and mmdf types the existence check comes first and
    follows symbolic links: a destination that is a symbolic link to
    nothing fails as a missing destination, and the symlink error is
    raised only for a symbolic link whose target exists. *)
Theorem existence_check_precedes_symlink_check (msg_t : Type)
    (purge_headers : msg_t -> msg_t)
    (msg_as_string : msg_t -> bool -> bool -> string) (env : environ)
    (msg : msg_t) (option : string) (w : world) (t : delivery_type) (dest : string) :
  get_instructions (users env) option = Ret (t, dest) ->
  t = mbox \/ t = mmdf ->
  (forall target,
      names w !! dest = Some (Sym target) -> path_exists w target = false ->
      deliver msg_t purge_headers msg_as_string env msg option w
      = (Raise (DeliveryError (msg_missing dest)), log EvPurgeHeaders w))
  /\ (forall w',
      deliver msg_t purge_headers msg_as_string env msg option w
      = (Raise (DeliveryError (msg_symlink dest)), w') ->
      exists target,
        names w !! dest = Some (Sym target) /\ path_exists w target = true).
Proof.
  intros Hg Ht.
  unfold deliver, bind, modify, lift_result, gets, id. rewrite Hg.
  cbn [fst snd].
  set (w1 := log EvPurgeHeaders w).
  assert (Hex : path_exists w1 dest = path_exists w dest) by reflexivity.
  assert (Hli : path_islink w1 dest = path_islink w dest) by reflexivity.
  rewrite Hex, Hli.
  assert (Hfb : is_file_based t = true) by (destruct Ht; subst; reflexivity).
  assert (Hmf : is_mailbox_file t = true) by (destruct Ht; subst; reflexivity).
  rewrite Hfb, Hmf. cbn [andb].
  split.
  - intros target Hn Hmiss.
    assert (He : path_exists w dest = false).
    { unfold path_exists in *. destruct (stat w dest) as [nd|] eqn:Hs; [|reflexivity].
      rewrite (stat_through_link _ _ _ _ Hn Hs) in Hmiss. discriminate. }
    rewrite He. reflexivity.
  - intros w' H.
    destruct (path_exists w dest) eqn:He; cbn [negb] in H.
    2:{ unfold raise in H. apply raise_delivery_inj in H. exfalso.
        exact (missing_is_not_symlink dest H). }
    unfold ret at 1 in H. cbn iota in H.
    destruct (path_islink w dest) eqn:Hl.
    + unfold path_islink in Hl.
      destruct (names w !! dest) as [[i|target]|] eqn:Hn; try discriminate.
      exists target. split; [reflexivity|].
      unfold path_exists in *. destruct (stat w dest) as [nd|] eqn:Hs; [|discriminate].
      rewrite (stat_through_link _ _ _ _ Hn Hs). reflexivity.
    + exfalso. unfold ret at 1 in H. cbn iota in H.
      set (w2 := log _ w1) in H. set (message := msg_as_string _ _ _) in H.
      pose proof everything_is_an_event as HP.
      destruct Ht; subst t.
      * destruct (obeys_deliver_mbox env _ HP (fun m => m <> msg_symlink dest)
                    message dest (not_mbox_is_not_symlink dest)
                    (failure_mbox_is_not_symlink dest) w2) as [_ Hr].
        rewrite H in Hr. exact (Hr _ eq_refl eq_refl).
      * destruct (obeys_deliver_mmdf env _ HP (fun m => m <> msg_symlink dest)
                    message dest (not_mmdf_is_not_symlink dest)
                    (failure_mmdf_is_not_symlink dest) w2) as [_ Hr].
        rewrite H in Hr. exact (Hr _ eq_refl eq_refl).
Qed.

Lemma existence_check_precedes_symlink_check_witness :
  deliver string id example_serialize (example_env no_faults) "hello"%string
    "/var/mail/dangling" example_world
  = (Raise (DeliveryError (msg_missing "/var/mail/dangling")),
     log EvPurgeHeaders example_world).
Proof.
  apply (proj1 (existence_check_precedes_symlink_check string id example_serialize
           (example_env no_faults) "hello"%string "/var/mail/dangling" example_world
           mbox "/var/mail/dangling"%string eq_refl (or_introl eq_refl))
           "/nowhere"%string);
    vm_compute; reflexivity.
Defined.

(** ** Running the file operations *)

Lemma setw_start w i nd : inodes w !! i = Some nd -> w = setw w i nd [].
Proof.
  intros H. destruct w as [ns ins al sg tr]. unfold setw. simpl in *.
  rewrite (insert_id _ _ _ H). reflexivity.
Qed.



Section Runs.

Context (env : environ) (w0 : world) (i : N).















End Runs.













Section BodyShape.

Context (env : environ).










End BodyShape.

(** ** The format check and the rollback of the appenders *)




Section Rollback.

Context (env : environ).





End Rollback.

Section Append.

Context (env : environ).




End Append.

Section AppendFailure.

Context (env : environ).


End AppendFailure.



Section FormatCheck.

Context (env : environ) (message path : string) (w : world) (i : N) (nd : inode).
Context (Hs : stat_ino w path = Some i) (Hi : inodes w !! i = Some nd)
        (Ht : i_type nd = Regular).



End FormatCheck.

Section FormatCheckTheorem.

Context (env : environ) (message path : string) (w : world) (i : N) (nd : inode).
Context (Hs : stat_ino w path = Some i) (Hi : inodes w !! i = Some nd)
        (Ht : i_type nd = Regular).


End FormatCheckTheorem.






(** ** Delivery into a maildir *)

Ltac maildir_branch H :=
  match type of H with
  | context [match faults ?e ?s with _ => _ end] => destruct (faults e s) eqn:?
  | context [match stat_ino ?w ?p with _ => _ end] => destruct (stat_ino w p) eqn:?
  | context [match final_name ?f ?n ?p with _ => _ end] =>
      destruct (final_name f n p) eqn:?
  | context [match @lookup ?K ?A ?M ?L ?k ?m with _ => _ end] =>
      destruct (@lookup K A M L k m) eqn:?
  | context [match i_type ?n with _ => _ end] => destruct (i_type n) eqn:?
  | context [match ?d with Hard _ => _ | Sym _ => _ end] => destruct d
  | context [if ?b then _ else _] => destruct b eqn:?
  end;
  cbn beta iota zeta in H;
  cbn [fst snd names inodes alarm sigalrm trace log upd_inode set_inodes set_names
       set_alarm set_sigalrm is_env_error any_error ENOENT EEXIST EISDIR EBADF ELOOP] in H.

Lemma alarm_cancel : signal_alarm 0 = modify (set_alarm None).
Proof. reflexivity. Qed.

Lemma alarm_set : signal_alarm (24 * 60 * 60) = modify (set_alarm (Some 86400%N)).
Proof. reflexivity. Qed.

Section MaildirRuns.

Context (env : environ).

(** What the second [try] block does: the link fails and the block
    reports it; or the link succeeds and so does the unlink; or the link
    succeeds, the unlink fails, and the block reports a failure although
    the message stays under its final name. *)
Lemma move_outcomes src dst w r w' :
  maildir_move env src dst w = (r, w') ->
  (r = Raise (DeliveryError (msg_failure_renaming src dst))
   /\ alarm w' = None
   /\ exists ok, trace w' = EvSys m_cleanup_unlink ok :: EvSys m_link false :: trace w)
  \/ (exists e,
        names w !! src = Some e /\ names w !! dst = None
        /\ ((faults env m_unlink = None
             /\ r = Ret tt
             /\ trace w' = EvSys m_unlink true :: EvSys m_link true :: trace w
             /\ names w' = delete src (<[dst:=e]> (names w))
             /\ alarm w' = alarm w /\ sigalrm w' = sigalrm w)
            \/ (faults env m_unlink <> None
                /\ r = Raise (DeliveryError (msg_failure_renaming src dst))
                /\ alarm w' = None
                /\ names w' !! dst = Some e
                /\ exists ok,
                     trace w' = EvSys m_cleanup_unlink ok :: EvSys m_unlink false
                                :: EvSys m_link true :: trace w))).
Proof.
  intros H.
  unfold maildir_move in H. rewrite alarm_cancel in H.
  unfold try_except, bind, sys_link, sys_unlink, syscall, modify, raise, ret in H.
  cbn beta iota zeta in H.
  assert (Hne : forall e, names w !! src = Some e -> names w !! dst = None -> dst <> src)
    by (intros e E1 E2 ->; congruence).
  destruct (faults env m_link) eqn:Fl.
  { cbn [is_env_error ENOENT EEXIST fst snd names trace log set_alarm] in H.
    left. repeat maildir_branch H; injection H as <- <-; cbn [alarm trace log set_names
      set_alarm]; repeat split; eauto. }
  destruct (names w !! src) as [e|] eqn:Es.
  2:{ cbn [is_env_error ENOENT EEXIST fst snd names trace log set_alarm] in H.
      left. repeat maildir_branch H; injection H as <- <-; cbn [alarm trace log set_names
        set_alarm]; repeat split; eauto. }
  destruct (names w !! dst) as [e'|] eqn:Ed.
  { cbn [is_env_error ENOENT EEXIST fst snd names trace log set_alarm] in H.
    left. repeat maildir_branch H; injection H as <- <-; cbn [alarm trace log set_names
      set_alarm]; repeat split; eauto. }
  right. exists e. split; [reflexivity|]. split; [reflexivity|].
  cbn beta iota zeta in H.
  cbn [fst snd names inodes alarm sigalrm trace log set_names set_alarm] in H.
  assert (Hsrc : <[dst:=e]> (names w) !! src = Some e).
  { rewrite lookup_insert_ne by (apply (Hne e); auto). exact Es. }
  destruct (faults env m_unlink) eqn:Fu.
  - right. split; [discriminate|].
    cbn [is_env_error fst snd names inodes alarm sigalrm trace log set_names set_alarm] in H.
    destruct (faults env m_cleanup_unlink) eqn:Fc.
    + injection H as <- <-. cbn [alarm names trace log set_alarm set_names].
      repeat split; eauto. apply lookup_insert_eq.
    + rewrite Hsrc in H. injection H as <- <-.
      cbn [alarm names trace log set_alarm set_names].
      repeat split; eauto.
      rewrite lookup_delete_ne by (intros E; apply (Hne e); auto).
      apply lookup_insert_eq.
  - rewrite Hsrc in H. injection H as <- <-. left.
    cbn [alarm sigalrm names trace log set_alarm set_names]. repeat split.
Qed.

End MaildirRuns.

Section CallOutcomes.

Context (env : environ).

Lemma syscall_outcome {A} (s : site) (op : world -> result A * world) w r w' :
  (forall w, trace (snd (op w)) = trace w /\ alarm (snd (op w)) = alarm w
             /\ forall e, fst (op w) = Raise e -> is_env_error e = true) ->
  syscall env s op w = (r, w') -> call_outcome s w r w'.
Proof.
  intros Hop H. unfold syscall in H. unfold call_outcome, stepped.
  destruct (faults env s) as [ft|].
  - injection H as <- <-. right. eexists. repeat split.
  - destruct (Hop w) as (Ht & Ha & He). destruct (op w) as [[a|e] w1];
      injection H as <- <-; cbn [fst snd trace alarm log] in *.
    + left. eexists. rewrite Ht, Ha. repeat split.
    + right. eexists. rewrite Ht, Ha. repeat split. apply He. reflexivity.
Qed.

Ltac op_facts :=
  intros w0; unfold on_inode;
  repeat match goal with
         | |- context [match ?x with _ => _ end] => destruct x
         end;
  cbn [fst snd trace alarm upd_inode set_inodes set_names];
  repeat split; try discriminate; intros ? [= <-]; reflexivity.

Lemma stat_outcome s path w r w' :
  sys_stat env s path w = (r, w') -> call_outcome s w r w'.
Proof. apply syscall_outcome. op_facts. Qed.

Lemma open_w_outcome s path w r w' :
  sys_open_w env s path w = (r, w') -> call_outcome s w r w'.
Proof. apply syscall_outcome. op_facts. Qed.

Lemma plain_outcome s w r w' :
  sys_plain env s w = (r, w') -> call_outcome s w r w'.
Proof. apply syscall_outcome. op_facts. Qed.

Lemma chmod_outcome s path m w r w' :
  sys_chmod env s path m w = (r, w') -> call_outcome s w r w'.
Proof. apply syscall_outcome. op_facts. Qed.

Lemma chown_outcome s path u g w r w' :
  sys_chown env s path u g w = (r, w') -> call_outcome s w r w'.
Proof. apply syscall_outcome. op_facts. Qed.

Lemma write_outcome s i pos x w r w' :
  sys_write env s i pos x w = (r, w') -> call_outcome s w r w'.
Proof.
  unfold sys_write, call_outcome, stepped. intros H.
  destruct (inodes w !! i) as [nd|]; [destruct (faults env s) as [ft|]|];
    injection H as <- <-; cbn [trace alarm log upd_inode set_inodes];
    [right | left | right]; eexists; repeat split.
Qed.

End CallOutcomes.

Ltac call_cases H E :=
  let a := fresh "a" in let e := fresh "e" in
  let He := fresh "He" in let St := fresh "St" in
  destruct E as [(a & -> & St) | (e & -> & He & St)];
  cbn beta iota zeta in H;
  repeat match goal with
         | Hx : is_env_error _ = true |- _ => rewrite Hx in H
         end;
  cbn beta iota zeta in H.

Ltac call_step H :=
  let r := fresh "r" in let w := fresh "w" in let E := fresh "E" in
  match type of H with
  | context [sys_stat ?env ?s ?p ?w0] =>
      destruct (sys_stat env s p w0) as [r w] eqn:E; apply stat_outcome in E
  | context [sys_open_w ?env ?s ?p ?w0] =>
      destruct (sys_open_w env s p w0) as [r w] eqn:E; apply open_w_outcome in E
  | context [sys_write ?env ?s ?i ?p ?x ?w0] =>
      destruct (sys_write env s i p x w0) as [r w] eqn:E; apply write_outcome in E
  | context [sys_plain ?env ?s ?w0] =>
      destruct (sys_plain env s w0) as [r w] eqn:E; apply plain_outcome in E
  | context [sys_chmod ?env ?s ?p ?m ?w0] =>
      destruct (sys_chmod env s p m w0) as [r w] eqn:E; apply chmod_outcome in E
  | context [sys_chown ?env ?s ?p ?u ?g ?w0] =>
      destruct (sys_chown env s p u g w0) as [r w] eqn:E; apply chown_outcome in E
  end;
  call_cases H E.

Lemma before_move_cons s ok l :
  before_move (EvSys s ok :: l) = negb (move_site s) && before_move l.
Proof. reflexivity. Qed.

Lemma write_failed_cons s ok l :
  write_failed (EvSys s ok :: l) = (if ok then false else write_site s) || write_failed l.
Proof. destruct ok; reflexivity. Qed.

(** Rewrite the trace and the alarm of the last state back to those of
    the first one. *)
Ltac unwind :=
  repeat match goal with
         | St : stepped _ _ _ _ |- _ =>
             let T := fresh "T" in let A := fresh "A" in destruct St as [T A]
         end;
  cbn [trace alarm set_alarm set_sigalrm log];
  repeat match goal with
         | T : trace ?w = _ |- context [trace ?w] => rewrite T
         | A : alarm ?w = _ |- context [alarm ?w] => rewrite A
         end;
  rewrite ?before_move_cons, ?write_failed_cons;
  cbn [move_site write_site negb andb orb].

Section MaildirWrite.

Context (env : environ).

(** What the first [try] block does: it returns with every call of the
    block having succeeded (the change of owner apart) and the alarm as it
    was, or it cancels the alarm and raises its delivery error. It makes
    no call of the second block. *)
Lemma write_outcomes message tmp o g w r w' :
  maildir_write env message tmp o g w = (r, w') ->
  before_move (trace w') = before_move (trace w)
  /\ ((r = Ret tt /\ write_failed (trace w') = write_failed (trace w)
       /\ alarm w' = alarm w)
      \/ (write_failed (trace w') = true
          /\ alarm w' = None
          /\ exists txt, r = Raise (DeliveryError (msg_failure_writing tmp txt)))).
Proof.
  intros H.
  unfold maildir_write, with_open_w, signal_alarm, try_except, bind, modify, raise, ret in H.
  change (N.eqb 0 0) with true in H. cbn beta iota in H.
  call_step H.
  2:{ injection H as <- <-. unwind. split; [reflexivity|]. right. eauto. }
  call_step H.
  2:{ call_step H; injection H as <- <-; unwind;
        (split; [reflexivity|]); right; eauto. }
  call_step H.
  2:{ call_step H; injection H as <- <-; unwind;
        (split; [reflexivity|]); right; eauto. }
  call_step H.
  2:{ call_step H; injection H as <- <-; unwind;
        (split; [reflexivity|]); right; eauto. }
  call_step H.
  2:{ injection H as <- <-. unwind. split; [reflexivity|]. right. eauto. }
  call_step H.
  2:{ injection H as <- <-. unwind. split; [reflexivity|]. right. eauto. }
  call_step H; injection H as <- <-; unwind; (split; [reflexivity|]); left;
    repeat split;
    repeat match goal with
           | u : unit |- _ => destruct u
           end; reflexivity.
Qed.

End MaildirWrite.

Section MaildirPrefix.

Context (env : environ).

(** A maildir delivery stops before the second [try] block with an error,
    and then either the first block failed and cancelled the alarm, or
    the alarm is still pending; or it reaches the second block with the
    alarm pending and every call of the first block having succeeded. *)
Lemma maildir_prefix message dir w r w' :
  __deliver_maildir env message dir w = (r, w') ->
  (before_move (trace w') = before_move (trace w)
   /\ (exists e, r = Raise e)
   /\ ((write_failed (trace w') = true /\ alarm w' = None
        /\ exists txt,
             r = Raise (DeliveryError (msg_failure_writing (fname_tmp_of env dir) txt)))
       \/ (write_failed (trace w') = write_failed (trace w)
           /\ alarm w' = Some 86400%N)))
  \/ (exists w3 fstatus,
        maildir_finish env (fname_tmp_of env dir) (fname_new_of env dir fstatus) w3
        = (r, w')
        /\ before_move (trace w3) = before_move (trace w)
        /\ write_failed (trace w3) = write_failed (trace w)
        /\ alarm w3 = Some 86400%N).
Proof.
  intros H.
  unfold __deliver_maildir, signal_alarm, signal_signal, bind, gets, modify, raise, id in H.
  change (N.eqb (24 * 60 * 60) 0) with false in H.
  change (N.eqb 0 0) with true in H.
  cbn beta iota zeta in H.
  set (w1 := set_alarm (Some (24 * 60 * 60)%N) (set_sigalrm alarm_handler w)) in H.
  assert (T1 : trace w1 = trace w) by reflexivity.
  assert (A1 : alarm w1 = Some 86400%N) by reflexivity.
  clearbody w1.
  match type of H with
  | context [if ?b then _ else _] => destruct b
  end.
  { injection H as <- <-. left. rewrite T1. eauto 10. }
  match type of H with
  | context [if ?b then _ else _] => destruct b
  end.
  { injection H as <- <-. left. rewrite T1. eauto 10. }
  call_step H.
  2:{ injection H as <- <-. left. unwind. rewrite ?T1.
      split; [reflexivity|]. split; [eauto|]. right. split; [reflexivity|]. congruence. }
  match type of H with
  | context [maildir_write ?e ?m ?t ?o ?g ?w0] =>
      destruct (maildir_write e m t o g w0) as [rw w2] eqn:E;
      apply write_outcomes in E;
      destruct E as [Bm [(-> & Wf & Al) | (Wf & Al & txt & ->)]]
  end; cbn beta iota zeta in H.
  2:{ injection H as <- <-. left. rewrite Bm. unwind. rewrite ?T1.
      split; [reflexivity|]. split; [eauto|]. left. eauto. }
  call_step H.
  2:{ injection H as <- <-. left. unwind. rewrite Bm, Wf. unwind. rewrite ?T1.
      split; [reflexivity|]. split; [eauto|]. right. split; [reflexivity|]. congruence. }
  match type of H with
  | context [if ?b then _ else _] => destruct b
  end.
  { injection H as <- <-. left. unwind. rewrite Bm, Wf. unwind. rewrite ?T1.
    split; [reflexivity|]. split; [eauto|]. right. split; [reflexivity|]. congruence. }
  right. eexists _, _. split; [exact H|].
  unwind. rewrite Bm, Wf. unwind. rewrite ?T1.
  repeat split; congruence.
Qed.

End MaildirPrefix.



Section MaildirFinish.

Context (env : environ).

(** The end of a maildir delivery, from the second [try] block on. *)
Lemma finish_outcomes src dst w r w' :
  maildir_finish env src dst w = (r, w') ->
  (r = Raise (DeliveryError (msg_failure_renaming src dst))
   /\ alarm w' = None
   /\ exists ok, trace w' = EvSys m_cleanup_unlink ok :: EvSys m_link false :: trace w)
  \/ (exists e,
        names w !! src = Some e /\ names w !! dst = None /\ names w' !! dst = Some e
        /\ alarm w' = None
        /\ ((faults env m_unlink = None
             /\ r = Ret tt
             /\ trace w' = EvSys m_unlink true :: EvSys m_link true :: trace w
             /\ names w' !! src = None
             /\ sigalrm w' = SIG_DFL)
            \/ (faults env m_unlink <> None
                /\ r = Raise (DeliveryError (msg_failure_renaming src dst))
                /\ exists ok,
                     trace w' = EvSys m_cleanup_unlink ok :: EvSys m_unlink false
                                :: EvSys m_link true :: trace w))).
Proof.
  intros H. unfold maildir_finish, bind in H.
  destruct (maildir_move env src dst w) as [rm wm] eqn:Em.
  apply move_outcomes in Em.
  destruct Em as [(-> & Al & ok & Tr)
                 | (e & Es & Ed & [(Fu & -> & Tr & Nm & Al & Sg)
                                  | (Fu & -> & Al & Nd & ok & Tr)])].
  - injection H as <- <-. left. eauto.
  - unfold signal_alarm, signal_signal, modify in H.
    change (N.eqb 0 0) with true in H. cbn beta iota in H.
    injection H as <- <-. right. exists e.
    cbn [names alarm sigalrm trace set_alarm set_sigalrm].
    assert (Hne : dst <> src) by (intros ->; congruence).
    rewrite Nm. rewrite lookup_delete_ne by congruence. rewrite lookup_insert_eq.
    repeat (split; [reflexivity || assumption|]).
    left. rewrite lookup_delete_eq. repeat split; assumption.
  - injection H as <- <-. right. exists e.
    repeat (split; [assumption|]). right. eauto.
Qed.

End MaildirFinish.

(** ** Failures and what is cleaned up after them *)

Section MaildirTheorems.

Context (env : environ).


End MaildirTheorems.







(** C5, what the code does instead. A maildir delivery that ends in an
    error before its second [try] block, with no failed call of the first
    block, ends with the alarm still pending: the exits through
    not-a-maildir, through either name collision and through a failed
    [stat] do not cancel it. *)
Theorem alarm_left_pending (env : environ) (message dir : string) (w : world) :
  trace w = [] ->
  (exists e, fst (__deliver_maildir env message dir w) = Raise e) ->
  before_move (trace (snd (__deliver_maildir env message dir w))) = true ->
  write_failed (trace (snd (__deliver_maildir env message dir w))) = false ->
  alarm (snd (__deliver_maildir env message dir w)) = Some 86400%N.
Proof.
  intros Htr [e0 He] Hbm Hwf.
  destruct (__deliver_maildir env message dir w) as [r w'] eqn:H. cbn [fst snd] in *.
  subst r.
  destruct (maildir_prefix env _ _ _ _ _ H)
    as [(_ & _ & [(Wf & _) | (_ & Al)]) | (w3 & fstatus & Hf & _ & _ & _)].
  - congruence.
  - exact Al.
  - exfalso.
    destruct (finish_outcomes env _ _ _ _ _ Hf)
      as [(_ & _ & ok & Tr)
         | (e & _ & _ & _ & _ & [(_ & Hr & _) | (_ & _ & ok & Tr)])];
      try discriminate Hr;
      rewrite Tr, before_move_cons in Hbm; discriminate Hbm.
Qed.

Lemma alarm_left_pending_witness :
  fst (__deliver_maildir (example_env no_faults) "hello" "/home/alice/stuff"
         example_world)
  = Raise (DeliveryError (msg_not_maildir "/home/alice/stuff"))
  /\ alarm (snd (__deliver_maildir (example_env no_faults) "hello" "/home/alice/stuff"
                   example_world)) = Some 86400%N.
Proof.
  split; [reflexivity|].
  apply (alarm_left_pending (example_env no_faults) "hello" "/home/alice/stuff"
           example_world eq_refl);
    [eexists; reflexivity | reflexivity | reflexivity].
Defined.


(** ** More on the instruction parser *)





(** ** More on the appenders *)








Section AppendSuccess.

Context (env : environ) (message path : string) (w : world) (i : N) (nd : inode).
Context (Hs : stat_ino w path = Some i) (Hi : inodes w !! i = Some nd)
        (Ht : i_type nd = Regular).


End AppendSuccess.





Section BodyResult.

Context (env : environ).


End BodyResult.




(** ** More on maildir deliveries *)





Lemma path_join_prefix dir :
  exists pre, forall b, path_join dir b = pre +:+ b.
Proof.
  destruct dir as [|c r].
  - exists EmptyString. reflexivity.
  - unfold path_join. destruct (is_char "/" (last_or c r)).
    + exists (String c r). reflexivity.
    + exists (String c r +:+ "/"). intros b. rewrite append_assoc. reflexivity.
Qed.

Lemma last_or_app c a d x : last_or c (a +:+ String d x) = last_or d x.
Proof.
  revert c. induction a as [|e a IH]; intros c; [reflexivity|].
  change (String e a +:+ String d x) with (String e (a +:+ String d x)).
  cbn [last_or]. apply IH.
Qed.

(** A name in one of the three directories of a maildir. *)
Lemma path_join_sub dir pre (x y z : ascii) b :
  (forall b, path_join dir b = pre +:+ b) ->
  is_char "/" z = false ->
  path_join (path_join dir (String x (String y (String z EmptyString)))) b
  = pre +:+ String x (String y (String z (String "/" b))).
Proof.
  intros Hp Hz. rewrite Hp. unfold path_join at 1.
  destruct (pre +:+ String x (String y (String z EmptyString))) as [|c r] eqn:E.
  - destruct pre; discriminate E.
  - assert (L : last_or c r = z).
    { destruct pre as [|c' pre'].
      - injection E as <- <-. reflexivity.
      - change (String c' (pre' +:+ String x (String y (String z EmptyString)))
                = String c r) in E.
        injection E as <- <-. rewrite last_or_app. reflexivity. }
    rewrite L, Hz, <- E, append_assoc. reflexivity.
Qed.

Lemma tmp_new_differ env dir fstatus :
  fname_tmp_of env dir <> fname_new_of env dir fstatus.
Proof.
  unfold fname_tmp_of, fname_new_of.
  destruct (path_join_prefix dir) as [pre Hp].
  rewrite (path_join_sub dir pre "t" "m" "p" _ Hp eq_refl).
  rewrite (path_join_sub dir pre "n" "e" "w" _ Hp eq_refl).
  intros H. apply append_inj_l in H. discriminate H.
Qed.

Lemma all_chars_app p a b :
  all_chars p (a +:+ b) = all_chars p a && all_chars p b.
Proof.
  induction a as [|c a IH]; [reflexivity|].
  change (String c a +:+ b) with (String c (a +:+ b)).
  cbn [all_chars]. rewrite IH. apply andb_assoc.
Qed.

Lemma fmt_dec_chars n : all_chars name_char (fmt_dec n) = true.
Proof.
  unfold fmt_dec, DecimalString.NilZero.string_of_uint.
  assert (H : forall d, all_chars name_char (DecimalString.NilEmpty.string_of_uint d) = true)
    by (induction d; cbn [DecimalString.NilEmpty.string_of_uint all_chars];
        try rewrite IHd; reflexivity).
  destruct (N.to_uint n); try apply H. reflexivity.
Qed.

Lemma fmt_hex_chars n : all_chars name_char (fmt_hex n) = true.
Proof.
  unfold fmt_hex, HexadecimalString.NilZero.string_of_uint.
  assert (H : forall d,
             all_chars name_char (HexadecimalString.NilEmpty.string_of_uint d) = true)
    by (induction d; cbn [HexadecimalString.NilEmpty.string_of_uint all_chars];
        try rewrite IHd; reflexivity).
  destruct (N.to_hex_uint n); try apply H. reflexivity.
Qed.

Lemma replace_slash_chars s :
  all_chars (fun c => negb (is_char "/" c)) (replace_char "/" "\057" s) = true.
Proof.
  induction s as [|c s IH]; [reflexivity|].
  cbn [replace_char]. destruct (is_char "/" c) eqn:E.
  - rewrite all_chars_app, IH. reflexivity.
  - cbn [all_chars]. rewrite E, IH. reflexivity.
Qed.

Lemma replace_colon_chars s :
  all_chars (fun c => negb (is_char "/" c)) s = true ->
  all_chars name_char (replace_char ":" "\072" s) = true.
Proof.
  induction s as [|c s IH]; [reflexivity|].
  cbn [replace_char all_chars]. intros H. apply andb_true_iff in H. destruct H as [H1 H2].
  destruct (is_char ":" c) eqn:E.
  - rewrite all_chars_app, (IH H2). reflexivity.
  - cbn [all_chars]. unfold name_char at 1. rewrite H1, E, (IH H2). reflexivity.
Qed.

Lemma safe_hostname_chars env : all_chars name_char (safe_hostname env) = true.
Proof. apply replace_colon_chars, replace_slash_chars. Qed.

(** X7. Whatever the host is called, the name under which a maildir
    delivery writes the message lies in the [tmp] directory of the maildir
    and the name it moves it to in the [new] directory; the file-name part
    of either holds no slash and no colon; and the two names differ. *)
Theorem maildir_names (env : environ) (dir : string) (fstatus : stat_result) :
  exists bt bn,
    fname_tmp_of env dir = path_join dir "tmp" +:+ "/" +:+ bt
    /\ fname_new_of env dir fstatus = path_join dir "new" +:+ "/" +:+ bn
    /\ all_chars name_char bt = true
    /\ all_chars name_char bn = true
    /\ fname_tmp_of env dir <> fname_new_of env dir fstatus.
Proof.
  do 2 eexists. split; [|split; [|split; [|split]]].
  - unfold fname_tmp_of. destruct (path_join_prefix dir) as [pre Hp].
    rewrite (path_join_sub dir pre "t" "m" "p" _ Hp eq_refl), Hp.
    rewrite !append_assoc. reflexivity.
  - unfold fname_new_of. destruct (path_join_prefix dir) as [pre Hp].
    rewrite (path_join_sub dir pre "n" "e" "w" _ Hp eq_refl), Hp.
    rewrite !append_assoc. reflexivity.
  - rewrite !all_chars_app, fmt_dec_chars, fmt_dec_chars, safe_hostname_chars.
    reflexivity.
  - rewrite !all_chars_app, fmt_dec_chars, !fmt_hex_chars, safe_hostname_chars.
    reflexivity.
  - apply tmp_new_differ.
Qed.


Lemma inodes_log e w : inodes (log e w) = inodes w.
Proof. reflexivity. Qed.

Lemma inodes_upd_inode i f w : inodes (upd_inode i f w) = alter f i (inodes w).
Proof. reflexivity. Qed.

Lemma inodes_set_inodes f w : inodes (set_inodes f w) = f (inodes w).
Proof. reflexivity. Qed.

Lemma inodes_set_names f w : inodes (set_names f w) = inodes w.
Proof. reflexivity. Qed.

Lemma names_log e w : names (log e w) = names w.
Proof. reflexivity. Qed.

Lemma names_upd_inode i f w : names (upd_inode i f w) = names w.
Proof. reflexivity. Qed.

Lemma names_set_inodes f w : names (set_inodes f w) = names w.
Proof. reflexivity. Qed.

Lemma names_set_names f w : names (set_names f w) = f (names w).
Proof. reflexivity. Qed.

Lemma inodes_set_alarm a w : inodes (set_alarm a w) = inodes w.
Proof. reflexivity. Qed.

Lemma inodes_set_sigalrm h w : inodes (set_sigalrm h w) = inodes w.
Proof. reflexivity. Qed.

Lemma names_set_alarm a w : names (set_alarm a w) = names w.
Proof. reflexivity. Qed.

Lemma names_set_sigalrm h w : names (set_sigalrm h w) = names w.
Proof. reflexivity. Qed.

Ltac world_norm H :=
  repeat first
    [ rewrite inodes_log in H | rewrite inodes_upd_inode in H
    | rewrite inodes_set_inodes in H | rewrite inodes_set_names in H
    | rewrite names_log in H | rewrite names_upd_inode in H
    | rewrite names_set_inodes in H | rewrite names_set_names in H
    | rewrite inodes_set_alarm in H | rewrite inodes_set_sigalrm in H
    | rewrite names_set_alarm in H | rewrite names_set_sigalrm in H ].




Section RunCalls.

Context (env : environ) (s : site) (Fs : faults env s = None).









End RunCalls.




(** ** Existing mail is left alone *)

Section Keeps.

Context (I : world -> Prop).





Lemma keeps_any {A} (R : A -> Prop) (m : M world A) :
  keeps I R m -> keeps I (fun _ => True) m.
Proof. intros Hm w Hw. split; [apply (Hm w Hw) | auto]. Qed.




Context (Ilog : forall e w, I w -> I (log e w)).




End Keeps.

Section Spares.

Context (env : environ) (w0 : world) (t : string).
Context (Ht : names w0 !! t = None) (Hf : inodes w0 !! fresh_ino env = None).



Lemma spares_alarm a w : spares w0 t (fresh_ino env) w -> spares w0 t (fresh_ino env) (set_alarm a w).
Proof. intros H. exact H. Qed.

Lemma spares_sigalrm h w : spares w0 t (fresh_ino env) w -> spares w0 t (fresh_ino env) (set_sigalrm h w).
Proof. intros H. exact H. Qed.










End Spares.



(** ** A whole delivery *)



(** ** The lock *)



Section Locking.

Context (env : environ).



End Locking.


(** X12. A delivery that is turned down does nothing else: when the
    instruction is not recognised, when the destination of a file-based
    delivery does not exist, or when the destination of an mbox or mmdf
    delivery is a symbolic link, [deliver] raises after purging the
    headers, without serializing the message and without a single system
    call, so no file is opened, locked or created. *)
Theorem rejected_untouched (msg_t : Type) (purge_headers : msg_t -> msg_t)
    (msg_as_string : msg_t -> bool -> bool -> string) (env : environ)
    (msg : msg_t) (option : string) (w : world) :
  (forall e, get_instructions (users env) option = Raise e ->
     deliver msg_t purge_headers msg_as_string env msg option w
     = (Raise e, log EvPurgeHeaders w))
  /\ (forall t d, get_instructions (users env) option = Ret (t, d) ->
        is_file_based t = true /\ path_exists w d = false
        \/ is_mailbox_file t = true /\ path_islink w d = true ->
        exists m,
          deliver msg_t purge_headers msg_as_string env msg option w
          = (Raise (DeliveryError m), log EvPurgeHeaders w)
          /\ (m = msg_missing d \/ m = msg_symlink d)).
Proof.
  split.
  - intros e Hg. unfold deliver, bind, modify, lift_result. rewrite Hg. reflexivity.
  - intros t d Hg Hc.
    unfold deliver, bind, modify, lift_result, gets, id. rewrite Hg. cbn [fst snd].
    set (w1 := log EvPurgeHeaders w).
    change (path_exists w1 d) with (path_exists w d).
    change (path_islink w1 d) with (path_islink w d).
    destruct (is_file_based t && negb (path_exists w d)) eqn:C1.
    + exists (msg_missing d). split; [reflexivity | left; reflexivity].
    + unfold ret at 1. cbn iota.
      destruct Hc as [[Hf He] | [Hf Hl]].
      * rewrite Hf, He in C1. discriminate C1.
      * rewrite Hf, Hl. cbn [andb].
        exists (msg_symlink d). split; [reflexivity | right; reflexivity].
Qed.

Lemma rejected_untouched_witness :
  exists m,
    deliver string id example_serialize (example_env no_faults) "hello"%string
      "/var/mail/link" example_world
    = (Raise (DeliveryError m), log EvPurgeHeaders example_world).
Proof.
  destruct (proj2 (rejected_untouched string id example_serialize (example_env no_faults)
                     "hello"%string "/var/mail/link" example_world)
              mbox "/var/mail/link"%string) as (m & Hm & _);
    [ reflexivity | right; split; vm_compute; reflexivity | exists m; exact Hm ].
Defined.
